(** * Configuration consistency of the React application scaffold

    The repository consists of a Vite bundler configuration
    ([vite.config.ts]), an ESLint configuration ([.eslintrc.json]) and a
    configuration guide ([README.md]) that documents the TypeScript
    project files, the NPM scripts and a copy of the Vite configuration.

    The development embeds these artefacts as Rocq values: JSON documents
    as a [json] tree, the TypeScript module both as a syntax tree with an
    evaluator and as the configuration record it evaluates to. *)

From Stdlib Require Import String Ascii List Bool ZArith.

Set Warnings "-register-all".
Import ListNotations.
Open Scope list_scope.
Open Scope string_scope.

(* ================================================================== *)
(** * Part I: definitions *)
(* ================================================================== *)

(** ** String helpers (JavaScript [String.prototype] operations) *)

Module Str.

(** [s.startsWith(p)] *)
Definition startsWith (s p : string) : bool := String.prefix p s.

(** [s.split(c)] for a one-character separator: never the empty list. *)
Fixpoint split (c : ascii) (s : string) : list string :=
  match s with
  | EmptyString => [EmptyString]
  | String a rest =>
      if Ascii.eqb a c then EmptyString :: split c rest
      else match split c rest with
           | [] => [String a EmptyString]
           | w :: ws => String a w :: ws
           end
  end.

(** [s.includes(c)] for a character. *)
Fixpoint includes (s : string) (c : ascii) : bool :=
  match s with
  | EmptyString => false
  | String a rest => Ascii.eqb a c || includes rest c
  end.

(** [s.endsWith(suf) ? Some (s.slice(0, -suf.length)) : None] *)
Fixpoint stripSuffix (suf s : string) : option string :=
  if String.eqb s suf then Some EmptyString
  else match s with
       | EmptyString => None
       | String a rest => option_map (String a) (stripSuffix suf rest)
       end.

(** [s.startsWith(p) ? Some (s.slice(p.length)) : None] *)
Fixpoint stripPrefix (p s : string) : option string :=
  match p, s with
  | EmptyString, _ => Some s
  | String a p', String b s' =>
      if Ascii.eqb a b then stripPrefix p' s' else None
  | String _ _, EmptyString => None
  end.

(** Text before the first / the last occurrence of [c]
    ([s.slice(0, s.indexOf(c))], [s.slice(0, s.lastIndexOf(c))]);
    [None] when [c] does not occur. *)
Fixpoint beforeFirst (c : ascii) (s : string) : option string :=
  match s with
  | EmptyString => None
  | String a rest =>
      if Ascii.eqb a c then Some EmptyString
      else option_map (String a) (beforeFirst c rest)
  end.

Fixpoint beforeLast (c : ascii) (s : string) : option string :=
  match s with
  | EmptyString => None
  | String a rest =>
      match beforeLast c rest with
      | Some w => Some (String a w)
      | None => if Ascii.eqb a c then Some EmptyString else None
      end
  end.

(** [l.includes(x)] for a list of strings. *)
Definition mem (x : string) (l : list string) : bool :=
  existsb (String.eqb x) l.

(** No string occurs twice. *)
Fixpoint distinct (l : list string) : bool :=
  match l with
  | [] => true
  | x :: rest => negb (mem x rest) && distinct rest
  end.

(** The double-quote character, for strings that contain one. *)
Definition dquote : string := String (ascii_of_nat 34) EmptyString.

End Str.

(** ** Node's [path] module (POSIX flavour)

    [vite.config.ts] computes every alias target with
    [path.resolve(__dirname, p)].  The function is Node's; it is modelled
    here after its POSIX implementation: the arguments are joined from the
    right until an absolute one is met (the working directory standing in
    front of the first argument), and the joined path is normalised
    segment by segment. *)

Module Path.

Definition isAbsolute (p : string) : bool :=
  match p with
  | String c _ => Ascii.eqb c "/"%char
  | EmptyString => false
  end.

Definition relative (p : string) : Prop := isAbsolute p = false.

(** One segment of [normalizeString]: the segments kept so far are a
    stack, most recent first. *)
Definition normalizeStep (allowAboveRoot : bool)
    (stack : list string) (seg : string) : list string :=
  if (seg =? "") || (seg =? ".") then stack
  else if seg =? ".." then
    match stack with
    | top :: below =>
        if top =? ".." then
          (if allowAboveRoot then ".." :: stack else stack)
        else below
    | [] => if allowAboveRoot then [".."] else []
    end
  else seg :: stack.

(** A segment that names a directory entry: normalisation keeps it. *)
Definition plainSegment (seg : string) : bool :=
  negb ((seg =? "") || (seg =? ".") || (seg =? "..")).

Definition normalizeFrom (allowAboveRoot : bool)
    (stack : list string) (segs : list string) : list string :=
  fold_left (normalizeStep allowAboveRoot) segs stack.

(** The right-to-left loop of [resolve]: the joined path and whether an
    absolute argument was reached.  Empty arguments are skipped. *)
Fixpoint joinFromRight (args : list string) : string * bool :=
  match args with
  | [] => (EmptyString, false)
  | p :: later =>
      let '(tail, absolute) := joinFromRight later in
      if absolute then (tail, true)
      else if p =? "" then (tail, false)
      else (p ++ "/" ++ tail, isAbsolute p)
  end.

(** Segments of the resolved path, and whether it is absolute. *)
Definition resolvedSegments (cwd : string) (args : list string)
  : list string :=
  let '(joined, absolute) := joinFromRight (cwd :: args) in
  rev (normalizeFrom (negb absolute) [] (Str.split "/" joined)).

Definition resolvedAbsolute (cwd : string) (args : list string) : bool :=
  snd (joinFromRight (cwd :: args)).

(** [path.resolve(...args)] in a process whose working directory is
    [cwd]. *)
Definition resolve (cwd : string) (args : list string) : string :=
  let segs := resolvedSegments cwd args in
  if resolvedAbsolute cwd args then "/" ++ String.concat "/" segs
  else match segs with
       | [] => "."
       | _ => String.concat "/" segs
       end.

End Path.

(** ** JSON documents *)

Module Json.

(** A JSON value; an object keeps its members in document order. *)
Inductive json : Type :=
| JNull : json
| JBool : bool -> json
| JNum : Z -> json
| JStr : string -> json
| JArr : list json -> json
| JObj : list (string * json) -> json.

Fixpoint assoc {A : Type} (k : string) (l : list (string * A)) : option A :=
  match l with
  | [] => None
  | (k', v) :: rest => if k' =? k then Some v else assoc k rest
  end.

(** [j[k]] *)
Definition member (k : string) (j : json) : option json :=
  match j with
  | JObj fields => assoc k fields
  | _ => None
  end.

(** [Object.keys(j)] *)
Definition keys (j : json) : list string :=
  match j with
  | JObj fields => map fst fields
  | _ => []
  end.

(** [Object.entries(j)] *)
Definition entries (j : json) : list (string * json) :=
  match j with
  | JObj fields => fields
  | _ => []
  end.

Definition isArray (j : json) : bool :=
  match j with JArr _ => true | _ => false end.

Definition isObject (j : json) : bool :=
  match j with JObj _ => true | _ => false end.

Definition isString (j : json) : bool :=
  match j with JStr _ => true | _ => false end.

Definition isBool (j : json) : bool :=
  match j with JBool _ => true | _ => false end.

(** The strings of an array of strings; [None] for anything else. *)
Fixpoint strings (l : list json) : option (list string) :=
  match l with
  | [] => Some []
  | JStr s :: rest => option_map (cons s) (strings rest)
  | _ :: _ => None
  end.

Definition stringArray (j : json) : option (list string) :=
  match j with
  | JArr l => strings l
  | _ => None
  end.

Definition isStringArray (j : json) : bool :=
  match stringArray j with Some _ => true | None => false end.

(** The member [k] exists and passes [test]. *)
Definition memberIs (test : json -> bool) (k : string) (j : json) : bool :=
  match member k j with
  | Some v => test v
  | None => false
  end.

Definition hasMember (k : string) (j : json) : bool :=
  memberIs (fun _ => true) k j.

(** Follow a path of member names. *)
Fixpoint at_path (ks : list string) (j : json) : option json :=
  match ks with
  | [] => Some j
  | k :: ks' =>
      match member k j with
      | Some j' => at_path ks' j'
      | None => None
      end
  end.

End Json.
Import Json.

(** ** The TypeScript module [vite.config.ts] as syntax

    Only the constructs a configuration module can be built from are
    represented; function expressions and declarations are part of the
    syntax so that their absence from a module is a statement about the
    module and not about the syntax. *)

Module Js.

Inductive expr : Type :=
| EStr : string -> expr                         (* 'literal' *)
| EVar : string -> expr                         (* identifier *)
| EMember : expr -> string -> expr              (* e.name *)
| ECall : expr -> list expr -> expr             (* f(a, ...) *)
| EObject : list (string * expr) -> expr        (* { k: e, ... } *)
| EArray : list expr -> expr                    (* [e, ...] *)
| EArrow : list string -> expr -> expr.         (* (x, ...) => e *)

Inductive stmt : Type :=
| SImportDefault : string -> string -> stmt     (* import x from 'm' *)
| SImportNamed : list string -> string -> stmt  (* import { x } from 'm' *)
| SConst : string -> expr -> stmt               (* const x = e *)
| SFunction : string -> list string -> expr -> stmt
                                                (* function f(..) {..} *)
| SExportConst : string -> expr -> stmt         (* export const x = e *)
| SExportFunction : string -> list string -> expr -> stmt
| SExportDefault : expr -> stmt.                (* export default e *)

Definition module : Type := list stmt.

(** Names under which a module exports something. *)
Definition exportedName (s : stmt) : option string :=
  match s with
  | SExportConst x _ => Some x
  | SExportFunction f _ _ => Some f
  | SExportDefault _ => Some "default"
  | _ => None
  end.

Fixpoint exportNames (m : module) : list string :=
  match m with
  | [] => []
  | s :: rest =>
      match exportedName s with
      | Some x => x :: exportNames rest
      | None => exportNames rest
      end
  end.

Definition isImport (s : stmt) : bool :=
  match s with
  | SImportDefault _ _ | SImportNamed _ _ => true
  | _ => false
  end.

(** Local names bound by the import statements. *)
Definition importedNames (s : stmt) : list string :=
  match s with
  | SImportDefault x _ => [x]
  | SImportNamed xs _ => xs
  | _ => []
  end.

Definition defaultExports (m : module) : list expr :=
  flat_map (fun s => match s with SExportDefault e => [e] | _ => [] end) m.

(** Number of function expressions in an expression. *)
Fixpoint arrowCount (e : expr) : nat :=
  match e with
  | EStr _ | EVar _ => 0
  | EMember o _ => arrowCount o
  | ECall f args =>
      arrowCount f + fold_right (fun a n => arrowCount a + n) 0 args
  | EObject fields =>
      fold_right (fun kv n => arrowCount (snd kv) + n) 0 fields
  | EArray items => fold_right (fun a n => arrowCount a + n) 0 items
  | EArrow _ body => S (arrowCount body)
  end.

(** Number of functions a statement defines, declarations included. *)
Definition functionCount (s : stmt) : nat :=
  match s with
  | SImportDefault _ _ | SImportNamed _ _ => 0
  | SConst _ e | SExportConst _ e | SExportDefault e => arrowCount e
  | SFunction _ _ body | SExportFunction _ _ body => S (arrowCount body)
  end.

Definition moduleFunctionCount (m : module) : nat :=
  fold_right (fun s n => functionCount s + n) 0 m.

(** The callees of every call in an expression, outermost first. *)
Fixpoint callees (e : expr) : list expr :=
  match e with
  | EStr _ | EVar _ => []
  | EMember o _ => callees o
  | ECall f args =>
      (f :: callees f ++ flat_map callees args)%list
  | EObject fields => flat_map (fun kv => callees (snd kv)) fields
  | EArray items => flat_map callees items
  | EArrow _ body => callees body
  end.

(** The identifier an access path starts from ([path] in
    [path.resolve]). *)
Fixpoint headVar (e : expr) : option string :=
  match e with
  | EVar x => Some x
  | EMember o _ => headVar o
  | _ => None
  end.

(** Identifiers an expression reads. *)
Fixpoint freeVars (e : expr) : list string :=
  match e with
  | EStr _ => []
  | EVar x => [x]
  | EMember o _ => freeVars o
  | ECall f args => (freeVars f ++ flat_map freeVars args)%list
  | EObject fields => flat_map (fun kv => freeVars (snd kv)) fields
  | EArray items => flat_map freeVars items
  | EArrow params body =>
      filter (fun x => negb (existsb (String.eqb x) params)) (freeVars body)
  end.

End Js.

(** ** Evaluation of a configuration module, and the Vite configuration *)

Module Vite.
Section Host.

(** What the module receives from its host: the working directory of
    the Node process, the directory of the module file ([__dirname]),
    and the plugin factory imported from [@vitejs/plugin-react], whose
    result is opaque to the configuration. *)
Context {PluginOption : Type}.
Variable cwd : string.
Variable __dirname : string.
Variable react : unit -> PluginOption.

(** *** Values *)

Inductive builtin : Type :=
| PathResolve      (* path.resolve *)
| DefineConfig     (* defineConfig from 'vite' *)
| React.           (* default export of '@vitejs/plugin-react' *)

Inductive value : Type :=
| VStr : string -> value
| VObj : list (string * value) -> value
| VArr : list value -> value
| VFun : builtin -> value
| VPlugin : PluginOption -> value.

Definition env : Type := list (string * value).

(** [o[k] = v] on an object literal under construction: a repeated key
    keeps its place and takes the later value. *)
Fixpoint objSet (k : string) (v : value) (o : list (string * value))
  : list (string * value) :=
  match o with
  | [] => [(k, v)]
  | (k', v') :: rest =>
      if k' =? k then (k', v) :: rest else (k', v') :: objSet k v rest
  end.

Fixpoint stringArgs (vs : list value) : option (list string) :=
  match vs with
  | [] => Some []
  | VStr s :: rest => option_map (cons s) (stringArgs rest)
  | _ :: _ => None
  end.

(** [defineConfig] returns its argument: it exists for the sake of the
    type checker.  [path.resolve] takes strings only. *)
Definition applyBuiltin (b : builtin) (args : list value) : option value :=
  match b with
  | PathResolve =>
      option_map (fun ss => VStr (Path.resolve cwd ss)) (stringArgs args)
  | DefineConfig =>
      match args with
      | [config] => Some config
      | _ => None
      end
  | React =>
      match args with
      | [] => Some (VPlugin (react tt))
      | _ => None
      end
  end.

(** *** Expressions *)

Fixpoint eval (rho : env) (e : Js.expr) : option value :=
  match e with
  | Js.EStr s => Some (VStr s)
  | Js.EVar x => assoc x rho
  | Js.EMember o name =>
      match eval rho o with
      | Some (VObj fields) => assoc name fields
      | _ => None
      end
  | Js.ECall f args =>
      match eval rho f with
      | Some (VFun b) =>
          match
            (fix evalArgs (l : list Js.expr) : option (list value) :=
               match l with
               | [] => Some []
               | a :: l' =>
                   match eval rho a, evalArgs l' with
                   | Some v, Some vs => Some (v :: vs)
                   | _, _ => None
                   end
               end) args
          with
          | Some vs => applyBuiltin b vs
          | None => None
          end
      | _ => None
      end
  | Js.EObject fields =>
      option_map VObj
        ((fix evalFields (l : list (string * Js.expr))
              (done : list (string * value))
            : option (list (string * value)) :=
            match l with
            | [] => Some done
            | (k, a) :: l' =>
                match eval rho a with
                | Some v => evalFields l' (objSet k v done)
                | None => None
                end
            end) fields [])
  | Js.EArray items =>
      option_map VArr
        ((fix evalItems (l : list Js.expr) : option (list value) :=
            match l with
            | [] => Some []
            | a :: l' =>
                match eval rho a, evalItems l' with
                | Some v, Some vs => Some (v :: vs)
                | _, _ => None
                end
            end) items)
  | Js.EArrow _ _ => None   (* closures are outside the model *)
  end.

(** *** Modules *)

(** Exports of the three packages the configuration imports from. *)
Definition externalModule (specifier : string) : option env :=
  if specifier =? "path" then
    Some [("default", VObj [("resolve", VFun PathResolve)])]
  else if specifier =? "vite" then
    Some [("defineConfig", VFun DefineConfig)]
  else if specifier =? "@vitejs/plugin-react" then
    Some [("default", VFun React)]
  else None.

Definition globals : env := [("__dirname", VStr __dirname)].

Fixpoint bindNamed (names : list string) (exports rho : env) : option env :=
  match names with
  | [] => Some rho
  | x :: rest =>
      match assoc x exports with
      | Some v => bindNamed rest exports ((x, v) :: rho)
      | None => None
      end
  end.

(** Run the statements in order; the result is the module's exports,
    in the order they are made. *)
Fixpoint evalModule (rho : env) (m : Js.module) : option env :=
  match m with
  | [] => Some []
  | s :: rest =>
      match s with
      | Js.SImportDefault x from =>
          match externalModule from with
          | Some exports =>
              match assoc "default" exports with
              | Some v => evalModule ((x, v) :: rho) rest
              | None => None
              end
          | None => None
          end
      | Js.SImportNamed xs from =>
          match externalModule from with
          | Some exports =>
              match bindNamed xs exports rho with
              | Some rho' => evalModule rho' rest
              | None => None
              end
          | None => None
          end
      | Js.SConst x e =>
          match eval rho e with
          | Some v => evalModule ((x, v) :: rho) rest
          | None => None
          end
      | Js.SExportConst x e =>
          match eval rho e with
          | Some v =>
              option_map (cons (x, v)) (evalModule ((x, v) :: rho) rest)
          | None => None
          end
      | Js.SExportDefault e =>
          match eval rho e with
          | Some v => option_map (cons ("default", v)) (evalModule rho rest)
          | None => None
          end
      | Js.SFunction _ _ _ | Js.SExportFunction _ _ _ => None
      end
  end.

Definition load (m : Js.module) : option env := evalModule globals m.

(** *** The configuration record *)

Record ResolveOptions : Type := { alias : list (string * string) }.

Record UserConfig : Type := {
  resolve : ResolveOptions;
  plugins : list PluginOption
}.

Definition defineConfig (config : UserConfig) : UserConfig := config.

(** The record as the JavaScript object it stands for. *)
Definition configValue (c : UserConfig) : value :=
  VObj [("resolve",
         VObj [("alias",
                VObj (map (fun kv => (fst kv, VStr (snd kv)))
                          (alias (resolve c))))]);
        ("plugins", VArr (map VPlugin (plugins c)))].

(** [src/vite.config.ts], lines 6-26: the default export. *)
Definition vite_config : UserConfig :=
  defineConfig {|
    resolve := {|
      alias := [
        ("@UI", Path.resolve cwd [__dirname; "./src/shared/UI"]);

        ("@services", Path.resolve cwd [__dirname; "./src/app/api/services"]);
        ("@servicesTypes", Path.resolve cwd [__dirname; "./src/app/api/types"]);
        ("@constants", Path.resolve cwd [__dirname; "./src/app/constants"]);

        ("@app", Path.resolve cwd [__dirname; "./src/app"]);
        ("@assets", Path.resolve cwd [__dirname; "./src/assets"]);
        ("@components", Path.resolve cwd [__dirname; "./src/components"]);
        ("@shadecn", Path.resolve cwd [__dirname; "./src/shadecn"]);
        ("@hooks", Path.resolve cwd [__dirname; "./src/hooks"]);
        ("@store", Path.resolve cwd [__dirname; "./src/store"]);

        ("@", Path.resolve cwd [__dirname; "./src"])
      ]
    |};
    plugins := [react tt]
  |}.

End Host.

(** *** The module text *)

Definition resolveCall (p : string) : Js.expr :=
  Js.ECall (Js.EMember (Js.EVar "path") "resolve")
           [Js.EVar "__dirname"; Js.EStr p].

(** [src/vite.config.ts], statement by statement. *)
Definition vite_config_module : Js.module := [
  Js.SImportDefault "path" "path";
  Js.SImportNamed ["defineConfig"] "vite";
  Js.SImportDefault "react" "@vitejs/plugin-react";
  Js.SExportDefault
    (Js.ECall (Js.EVar "defineConfig") [
      Js.EObject [
        ("resolve", Js.EObject [
          ("alias", Js.EObject [
            ("@UI", resolveCall "./src/shared/UI");
            ("@services", resolveCall "./src/app/api/services");
            ("@servicesTypes", resolveCall "./src/app/api/types");
            ("@constants", resolveCall "./src/app/constants");
            ("@app", resolveCall "./src/app");
            ("@assets", resolveCall "./src/assets");
            ("@components", resolveCall "./src/components");
            ("@shadecn", resolveCall "./src/shadecn");
            ("@hooks", resolveCall "./src/hooks");
            ("@store", resolveCall "./src/store");
            ("@", resolveCall "./src")
          ])
        ]);
        ("plugins", Js.EArray [Js.ECall (Js.EVar "react") []])
      ]
    ])
].

(** The code block of the guide's section on the Vite configuration
    ([src/README.md], lines 217-238). *)
Definition readme_vite_module : Js.module := [
  Js.SImportDefault "path" "path";
  Js.SImportNamed ["defineConfig"] "vite";
  Js.SImportDefault "react" "@vitejs/plugin-react";
  Js.SExportDefault
    (Js.ECall (Js.EVar "defineConfig") [
      Js.EObject [
        ("resolve", Js.EObject [
          ("alias", Js.EObject [
            ("@UI", resolveCall "./src/shared/UI");
            ("@services", resolveCall "./src/app/api/services");
            ("@servicesTypes", resolveCall "./src/app/api/types");
            ("@constants", resolveCall "./src/app/constants");
            ("@app", resolveCall "./src/app");
            ("@assets", resolveCall "./src/assets");
            ("@components", resolveCall "./src/components");
            ("@shadecn", resolveCall "./src/shadecn");
            ("@hooks", resolveCall "./src/hooks");
            ("@store", resolveCall "./src/store");
            ("@", resolveCall "./src")
          ])
        ]);
        ("plugins", Js.EArray [Js.ECall (Js.EVar "react") []])
      ]
    ])
].

(** The entries of the object literal at [resolve.alias] in the
    argument of the default export's call, as written. *)
Definition aliasExpressions (m : Js.module) : list (string * Js.expr) :=
  match Js.defaultExports m with
  | [Js.ECall _ [Js.EObject top]] =>
      match assoc "resolve" top with
      | Some (Js.EObject r) =>
          match assoc "alias" r with
          | Some (Js.EObject a) => a
          | _ => []
          end
      | _ => []
      end
  | _ => []
  end.

(** [p] when the expression is [path.resolve(__dirname, 'p')]. *)
Definition resolveArgument (e : Js.expr) : option string :=
  match e with
  | Js.ECall (Js.EMember (Js.EVar o) f) [Js.EVar d; Js.EStr p] =>
      if (o =? "path") && (f =? "resolve") && (d =? "__dirname")
      then Some p else None
  | _ => None
  end.

(** Alias keys with the relative path each one is resolved from. *)
Definition aliasArguments (m : Js.module) : list (string * option string) :=
  map (fun kv => (fst kv, resolveArgument (snd kv))) (aliasExpressions m).

(** The keys whose value is such a call, with the call's path. *)
Definition aliasTable (m : Js.module) : list (string * string) :=
  flat_map (fun kv => match snd kv with
                      | Some p => [(fst kv, p)]
                      | None => []
                      end) (aliasArguments m).

Definition isNil {A : Type} (l : list A) : bool :=
  match l with [] => true | _ => false end.

(** A path of the form [./src] or [./src/<plain segments>]: the
    segments below [src], if it is one. *)
Definition belowSrc (p : string) : option (list string) :=
  match Str.split "/" p with
  | dot :: src :: sub =>
      if (dot =? ".") && (src =? "src") && forallb Path.plainSegment sub
      then Some sub else None
  | _ => None
  end.

(** Reading a configuration back from the loaded module: the alias
    entries and the number of plugins of the default export. *)
Definition aliasEntries {P : Type} (v : @value P)
  : option (list (string * @value P)) :=
  match v with
  | VObj top =>
      match assoc "resolve" top with
      | Some (VObj r) =>
          match assoc "alias" r with
          | Some (VObj a) => Some a
          | _ => None
          end
      | _ => None
      end
  | _ => None
  end.

Definition pluginList {P : Type} (v : @value P) : option (list (@value P)) :=
  match v with
  | VObj top =>
      match assoc "plugins" top with
      | Some (VArr l) => Some l
      | _ => None
      end
  | _ => None
  end.

End Vite.

(** ** The ESLint configuration *)

Module Eslint.

(** [src/.eslintrc.json] *)
Definition eslintrc : json :=
  JObj [
    ("env", JObj [
      ("browser", JBool true);
      ("es6", JBool true);
      ("node", JBool true)
    ]);
    ("extends", JArr [
      JStr "eslint:recommended";
      JStr "plugin:react/recommended";
      JStr "plugin:react-hooks/recommended";
      JStr "plugin:@typescript-eslint/eslint-recommended";
      JStr "plugin:@typescript-eslint/recommended";
      JStr "plugin:import/warnings";
      JStr "plugin:import/typescript";
      JStr "prettier"
    ]);
    ("parser", JStr "@typescript-eslint/parser");
    ("parserOptions", JObj [
      ("ecmaVersion", JStr "latest");
      ("sourceType", JStr "module");
      ("ecmaFeatures", JObj [
        ("jsx", JBool true)
      ])
    ]);
    ("plugins", JArr [JStr "react"; JStr "react-refresh"; JStr "react-hooks";
                      JStr "import"; JStr "@typescript-eslint"; JStr "prettier"]);
    ("rules", JObj [
      ("react/jsx-key", JStr "warn");
      ("react/prop-types", JStr "off");
      ("react/display-name", JStr "warn");
      ("react/no-children-prop", JStr "warn");
      ("react/react-in-jsx-scope", JStr "off");
      ("react/button-has-type", JStr "warn");
      ("react-hooks/exhaustive-deps", JStr "off");
      ("react-hooks/rules-of-hooks", JStr "error");
      ("@typescript-eslint/no-unused-vars", JStr "warn");
      ("no-case-declarations", JStr "warn");
      ("no-console", JStr "warn");
      ("react-refresh/only-export-components", JStr "warn");
      ("@typescript-eslint/explicit-function-return-type", JStr "off");
      ("@typescript-eslint/no-explicit-any", JStr "warn");
      ("no-unsafe-optional-chaining", JStr "warn");
      ("import/order", JArr [
        JStr "error";
        JObj [
          ("groups", JArr [JStr "builtin"; JStr "external"; JStr "internal";
                           JStr "parent"; JStr "sibling"])
        ]
      ]);
      ("prettier/prettier", JArr [
        JStr "warn";
        JObj [
          ("endOfLine", JStr "auto")
        ]
      ])
    ]);
    ("settings", JObj [
      ("react", JObj [
        ("version", JStr "detect")
      ]);
      ("import/resolver", JObj [
        ("node", JObj [
          ("extensions", JArr [JStr ".js"; JStr ".jsx"; JStr ".ts"; JStr ".tsx"])
        ])
      ])
    ])
  ].

Definition rules : list (string * json) :=
  match member "rules" eslintrc with
  | Some r => entries r
  | None => []
  end.

Definition ruleNames : list string := map fst rules.

Definition plugins : list string :=
  match member "plugins" eslintrc with
  | Some (JArr l) => match strings l with Some ss => ss | None => [] end
  | _ => []
  end.

Definition extends : list string :=
  match member "extends" eslintrc with
  | Some (JArr l) => match strings l with Some ss => ss | None => [] end
  | _ => []
  end.

(** *** How ESLint reads the names

    A rule identifier with a slash belongs to a plugin: the plugin name
    is the text before the first slash, or before the last one for a
    scoped name ([@scope/...]).  An identifier without a slash is a
    rule of ESLint's own. *)
Definition rulePlugin (ruleId : string) : option string :=
  if Str.includes ruleId "/" then
    if Str.startsWith ruleId "@" then Str.beforeLast "/" ruleId
    else Str.beforeFirst "/" ruleId
  else None.

Definition isCoreRule (ruleId : string) : bool :=
  negb (Str.includes ruleId "/").

(** The plugin an [extends] entry of the form [plugin:<name>/<config>]
    takes its configuration from. *)
Definition extendsPlugin (entry : string) : option string :=
  match Str.stripPrefix "plugin:" entry with
  | Some rest => Str.beforeLast "/" rest
  | None => None
  end.

Fixpoint somes {A : Type} (l : list (option A)) : list A :=
  match l with
  | [] => []
  | Some a :: rest => a :: somes rest
  | None :: rest => somes rest
  end.

(** Plugin names made available by either array. *)
Definition declaredPlugins : list string :=
  (plugins ++ somes (map extendsPlugin extends))%list.

(** The prefixes the rule names of this file are drawn from. *)
Definition knownPrefixes : list string :=
  ["react"; "react-hooks"; "react-refresh"; "@typescript-eslint";
   "import"; "prettier"].

(** *** Rule settings *)

Definition isSeverity (s : string) : bool := Str.mem s ["off"; "warn"; "error"].

(** The severity of a rule setting: the setting itself, or the first
    element when the setting is an array. *)
Definition severityOf (setting : json) : option string :=
  match setting with
  | JStr s => Some s
  | JArr (JStr s :: _) => Some s
  | _ => None
  end.

(** A setting is a severity or a pair of a severity and an options
    object. *)
Definition settingShape (setting : json) : bool :=
  match setting with
  | JStr s => isSeverity s
  | JArr [JStr s; JObj _] => isSeverity s
  | _ => false
  end.

Definition hasSeverity (sev : string) (rule : string * json) : bool :=
  match severityOf (snd rule) with
  | Some s => s =? sev
  | None => false
  end.

Definition rulesAt (sev : string) : list string :=
  map fst (filter (hasSeverity sev) rules).

End Eslint.

(** ** The TypeScript project files documented in the guide *)

Module Tsconfig.

(** [tsconfig.json] ([src/README.md], lines 35-73). *)
Definition tsconfig_json : json :=
  JObj [
    ("compilerOptions", JObj [
      ("target", JStr "ESNext");
      ("useDefineForClassFields", JBool true);
      ("lib", JArr [JStr "DOM"; JStr "DOM.Iterable"; JStr "ESNext"]);
      ("allowJs", JBool false);
      ("skipLibCheck", JBool true);
      ("esModuleInterop", JBool false);
      ("allowSyntheticDefaultImports", JBool true);
      ("strict", JBool false);
      ("forceConsistentCasingInFileNames", JBool true);
      ("module", JStr "ESNext");
      ("moduleResolution", JStr "Node");
      ("resolveJsonModule", JBool true);
      ("isolatedModules", JBool true);
      ("noEmit", JBool true);
      ("jsx", JStr "react-jsx");
      ("baseUrl", JStr "./");
      ("paths", JObj [
        ("@UI/*", JArr [JStr "src/shared/UI/*"]);
        ("@services/*", JArr [JStr "src/app/api/services/*"]);
        ("@servicesTypes/*", JArr [JStr "src/app/api/types/*"]);
        ("@constants/*", JArr [JStr "src/app/constants/*"]);
        ("@app/*", JArr [JStr "src/app/*"]);
        ("@store/*", JArr [JStr "src/store/*"]);
        ("@shadecn/*", JArr [JStr "src/shadecn/*"]);
        ("@components/*", JArr [JStr "src/components/*"]);
        ("@assets/*", JArr [JStr "src/assets/*"]);
        ("@hooks", JArr [JStr "src/hooks"]);
        ("@/*", JArr [JStr "src/*"])
      ])
    ]);
    ("include", JArr [JStr "src"]);
    ("references", JArr [
      JObj [
        ("path", JStr "./tsconfig.node.json")
      ]
    ])
  ].

(** [tsconfig.node.json] ([src/README.md], lines 106-128); the two
    comments of the block are not part of the value. *)
Definition tsconfig_node_json : json :=
  JObj [
    ("compilerOptions", JObj [
      ("target", JStr "ES2022");
      ("lib", JArr [JStr "ES2023"]);
      ("module", JStr "ESNext");
      ("skipLibCheck", JBool true);
      ("composite", JBool true);

      ("moduleResolution", JStr "bundler");
      ("allowImportingTsExtensions", JBool false);
      ("isolatedModules", JBool true);
      ("moduleDetection", JStr "force");
      ("noEmit", JBool false);

      ("strict", JBool true);
      ("noUnusedLocals", JBool true);
      ("noUnusedParameters", JBool true);
      ("noFallthroughCasesInSwitch", JBool true)
    ]);
    ("include", JArr [JStr "vite.config.ts"])
  ].

(** [tsconfig.app.json] ([src/README.md], lines 158-181). *)
Definition tsconfig_app_json : json :=
  JObj [
    ("compilerOptions", JObj [
      ("target", JStr "ES2020");
      ("useDefineForClassFields", JBool true);
      ("lib", JArr [JStr "ES2020"; JStr "DOM"; JStr "DOM.Iterable"]);
      ("module", JStr "ESNext");
      ("skipLibCheck", JBool true);

      ("moduleResolution", JStr "bundler");
      ("allowImportingTsExtensions", JBool true);
      ("isolatedModules", JBool true);
      ("moduleDetection", JStr "force");
      ("noEmit", JBool true);
      ("jsx", JStr "react-jsx");

      ("strict", JBool true);
      ("noUnusedLocals", JBool true);
      ("noUnusedParameters", JBool true);
      ("noFallthroughCasesInSwitch", JBool true)
    ]);
    ("include", JArr [JStr "src"])
  ].

Definition documented : list (string * json) := [
  ("tsconfig.json", tsconfig_json);
  ("tsconfig.node.json", tsconfig_node_json);
  ("tsconfig.app.json", tsconfig_app_json)
].

(** *** The shape a project file has *)

(** [compilerOptions] is a record that names the target, the module
    system, the library set and the [strict] flag. *)
Definition compilerOptionsShape (j : json) : bool :=
  memberIs
    (fun co =>
       isObject co
       && memberIs isString "target" co
       && memberIs isString "module" co
       && memberIs isStringArray "lib" co
       && memberIs isBool "strict" co)
    "compilerOptions" j.

Definition hasInclude (j : json) : bool := memberIs isStringArray "include" j.

Definition hasReferences (j : json) : bool := memberIs isArray "references" j.

Definition hasPaths (j : json) : bool :=
  memberIs (memberIs isObject "paths") "compilerOptions" j.

(** *** Path aliases *)

(** The [paths] map of [tsconfig.json]: pattern and substitutions. *)
Definition paths : list (string * list string) :=
  match at_path ["compilerOptions"; "paths"] tsconfig_json with
  | Some p =>
      map (fun kv =>
             (fst kv,
              match stringArray (snd kv) with
              | Some ss => ss
              | None => []
              end))
          (entries p)
  | None => []
  end.

Definition baseUrl : string :=
  match at_path ["compilerOptions"; "baseUrl"] tsconfig_json with
  | Some (JStr s) => s
  | _ => ""
  end.

(** A pattern or substitution without its trailing wildcard segment:
    ["@UI/*"] names the prefix ["@UI"], ["src/shared/UI/*"] the
    directory ["src/shared/UI"]. *)
Definition dropWildcard (s : string) : string :=
  match Str.stripSuffix "/*" s with
  | Some stem => stem
  | None => s
  end.

Definition hasWildcard (s : string) : bool :=
  match Str.stripSuffix "/*" s with
  | Some _ => true
  | None => false
  end.

(** The alias prefixes of [paths], each with the directory it stands
    for, relative to [baseUrl]. *)
Definition pathAliases : list (string * list string) :=
  map (fun kv => (dropWildcard (fst kv), map dropWildcard (snd kv))) paths.

Definition entry_eq_dec (x y : string * list string) : {x = y} + {x <> y}.
Proof.
  decide equality; [apply (list_eq_dec string_dec) | apply string_dec].
Defined.

(** [l1] is included in [l2], decided entry by entry. *)
Definition includedIn (l1 l2 : list (string * list string)) : bool :=
  forallb (fun x => if in_dec entry_eq_dec x l2 then true else false) l1.

(** Both alias maps written the same way, a key with the directories
    it stands for relative to the project root: the bundler's paths as
    they are, the type checker's ones behind [baseUrl]. *)
Definition bundlerView (table : list (string * string))
  : list (string * list string) :=
  map (fun kp => (fst kp, [snd kp])) table.

Definition checkerView : list (string * list string) :=
  map (fun kd => (fst kd, map (fun d => baseUrl ++ d) (snd kd))) pathAliases.

End Tsconfig.

(** ** The NPM scripts documented in the guide *)

Module Scripts.

(** The [scripts] block ([src/README.md], lines 426-434). *)
Definition package_json : json :=
  JObj [
    ("scripts", JObj [
      ("dev", JStr "vite --port=4000 --host");
      ("build", JStr "tsc -b && vite build");
      ("lint", JStr "eslint . --ext .js,.js,.jsx,.ts,.tsx");
      ("format", JStr ("prettier-eslint --write " ++ Str.dquote
                       ++ "src/**/*.{js,jsx,ts,tsx}" ++ Str.dquote));
      ("preview", JStr "vite preview")
    ])
  ].

Definition scripts : list (string * string) :=
  match member "scripts" package_json with
  | Some s =>
      flat_map (fun kv => match snd kv with
                          | JStr c => [(fst kv, c)]
                          | _ => []
                          end) (entries s)
  | None => []
  end.

(** *** How the shell reads a script

    [npm run] hands the command string to [sh -c].  Words are
    separated by blanks, a double-quoted stretch belongs to one word,
    and [&&] between two commands runs the second when the first
    succeeded. *)

Definition flush (word : string) (have : bool) (out : list string)
  : list string :=
  if have then (out ++ [word])%list else out.

Fixpoint wordsFrom (s : string) (word : string) (have quoted : bool)
    (out : list string) : list string :=
  match s with
  | EmptyString => flush word have out
  | String c rest =>
      if Ascii.eqb c (ascii_of_nat 34) then
        wordsFrom rest word true (negb quoted) out
      else if Ascii.eqb c " "%char && negb quoted then
        wordsFrom rest EmptyString false false (flush word have out)
      else
        wordsFrom rest (word ++ String c EmptyString) true quoted out
  end.

Definition words (s : string) : list string :=
  wordsFrom s EmptyString false false [].

(** Split a word list at every [&&]. *)
Fixpoint andList (ws : list string) : list (list string) :=
  match ws with
  | [] => [[]]
  | w :: rest =>
      if w =? "&&" then [] :: andList rest
      else match andList rest with
           | [] => [[w]]
           | c :: cs => (w :: c) :: cs
           end
  end.

Definition invocations (command : string) : list (list string) :=
  andList (words command).

(** The program each invocation of a script runs. *)
Definition programs (command : string) : list string :=
  flat_map (fun inv => match inv with
                       | prog :: _ => [prog]
                       | [] => []
                       end) (invocations command).

(** Characters with which a script would read its own arguments or an
    exit status, or combine commands other than by [&&]: parameter
    expansion, command substitution, sequencing, pipes and [||],
    redirection, subshells. *)
Definition shellLogic : list ascii :=
  ["$"; "`"; ";"; "|"; "<"; ">"; "("; ")"]%char.

Definition usesShellLogic (command : string) : bool :=
  existsb (Str.includes command) shellLogic.

(** Shell words that branch, loop, or set an exit status. *)
Definition shellKeywords : list string :=
  ["if"; "then"; "else"; "fi"; "case"; "for"; "while"; "exit"; "test";
   "["; "&"; "trap"; "set"].

Definition usesShellKeyword (command : string) : bool :=
  existsb (fun w => existsb (String.eqb w) shellKeywords) (words command).

End Scripts.

(** ** The formatter settings documented in the guide *)

Module Prettier.

(** The Prettier block ([src/README.md], lines 446-464), without its
    comments. *)
Definition prettierrc : json :=
  JObj [
    ("arrowParens", JStr "always");
    ("bracketSpacing", JBool true);
    ("endOfLine", JStr "lf");
    ("htmlWhitespaceSensitivity", JStr "css");
    ("insertPragma", JBool false);
    ("jsxBracketSameLine", JBool true);
    ("jsxSingleQuote", JBool false);
    ("printWidth", JNum 100);
    ("proseWrap", JStr "always");
    ("quoteProps", JStr "as-needed");
    ("requirePragma", JBool false);
    ("semi", JBool true);
    ("singleQuote", JBool true);
    ("tabWidth", JNum 2);
    ("trailingComma", JStr "es5");
    ("useTabs", JBool false);
    ("plugins", JArr [JStr "prettier-plugin-tailwindcss"])
  ].

End Prettier.

(** ** The files of the repository *)

Module Repository.

(** A fenced block of the guide: a JSON document or a JavaScript
    module. *)
Inductive block : Type :=
| JsonBlock : json -> block
| JsBlock : Js.module -> block.

Inductive content : Type :=
| JsonFile : json -> content
| ModuleFile : Js.module -> content
| Markdown : list block -> content.

(** The three files under [src/]; the guide's blocks in the order they
    appear (it prints the ESLint configuration twice). *)
Definition files : list (string * content) := [
  ("README.md", Markdown [
     JsonBlock Tsconfig.tsconfig_json;
     JsonBlock Tsconfig.tsconfig_node_json;
     JsonBlock Tsconfig.tsconfig_app_json;
     JsBlock Vite.readme_vite_module;
     JsonBlock Eslint.eslintrc;
     JsonBlock Eslint.eslintrc;
     JsonBlock Scripts.package_json;
     JsonBlock Prettier.prettierrc
   ]);
  ("vite.config.ts", ModuleFile Vite.vite_config_module);
  (".eslintrc.json", JsonFile Eslint.eslintrc)
].

(** Everything in the repository that is program text. *)
Definition modulesOf (c : content) : list Js.module :=
  match c with
  | JsonFile _ => []
  | ModuleFile m => [m]
  | Markdown blocks =>
      flat_map (fun b => match b with
                         | JsBlock m => [m]
                         | JsonBlock _ => []
                         end) blocks
  end.

Definition modules : list (string * Js.module) :=
  flat_map (fun f => map (fun m => (fst f, m)) (modulesOf (snd f))) files.

(** The statements of a module that are not imports. *)
Definition body (m : Js.module) : list Js.stmt :=
  filter (fun s => negb (Js.isImport s)) m.

Definition imported (m : Js.module) : list string :=
  flat_map Js.importedNames m.

End Repository.

(** ** Segments of a path *)

Module Segments.

(** A segment holds no separator. *)
Definition sepFree (w : string) : bool := negb (Str.includes w "/").

(** The directories below [src] that two alias paths name, compared. *)
Definition sameBelowSrc (p q : string) : bool :=
match Vite.belowSrc p, Vite.belowSrc q with
| Some s1, Some s2 => if list_eq_dec string_dec s1 s2 then true else false
| _, _ => false
end.

End Segments.

(** ** Import specifiers and alias keys *)

Module Alias.

(** A specifier is addressed by an alias key when it is the key itself
  or continues it with a slash: [@UI] and [@UI/Button] by [@UI], but
  not [@UIkit]. *)
Definition addresses (key specifier : string) : bool :=
(specifier =? key) || Str.startsWith specifier (key ++ "/").

(** The keys of a list of alias entries that address a specifier. *)
Definition addressing (keys : list string) (specifier : string)
: list string :=
filter (fun k => addresses k specifier) keys.

End Alias.

(** ** What the ESLint configuration refers to *)

Module EslintRefs.

(** The [parser] member. *)
Definition parser : string :=
match member "parser" Eslint.eslintrc with
| Some (JStr s) => s
| _ => ""
end.

(** The keys of [settings]. *)
Definition settingsKeys : list string :=
match member "settings" Eslint.eslintrc with
| Some s => Json.keys s
| None => []
end.

(** The name a shared setting is filed under: [import] for
  [import/resolver], the key itself when it has no slash. *)
Definition settingOwner (key : string) : string :=
match Str.beforeFirst "/" key with
| Some owner => owner
| None => key
end.

(** The [extends] entries that take a configuration from a plugin, and
  the others. *)
Definition pluginConfigs : list string :=
filter (fun e => Str.startsWith e "plugin:") Eslint.extends.

Definition otherConfigs : list string :=
filter (fun e => negb (Str.startsWith e "plugin:")) Eslint.extends.

(** The plugins of the rules that are configured. *)
Definition rulePlugins : list string :=
Eslint.somes (map Eslint.rulePlugin Eslint.ruleNames).

End EslintRefs.

(** ** File extensions named by the tools *)

Module Extensions.

(** Text after the first occurrence of [c]. *)
Fixpoint afterFirst (c : ascii) (s : string) : option string :=
match s with
| EmptyString => None
| String a rest => if Ascii.eqb a c then Some rest else afterFirst c rest
end.

(** The alternatives of the first brace group of a glob:
  [js], [jsx] for [src/**/*.{js,jsx}]. *)
Definition braceAlternatives (glob : string) : list string :=
match afterFirst "{" glob with
| Some rest =>
    match Str.beforeFirst "}" rest with
    | Some inside => Str.split "," inside
    | None => []
    end
| None => []
end.

(** The word that follows a flag on a command line. *)
Fixpoint optionValue (flag : string) (ws : list string) : option string :=
match ws with
| [] => None
| w :: rest =>
    if w =? flag then
      match rest with
      | v :: _ => Some v
      | [] => None
      end
    else optionValue flag rest
end.

Definition script (name : string) : string :=
match assoc name Scripts.scripts with
| Some c => c
| None => ""
end.

(** The extensions [eslint] is told to lint: the comma-separated value
  of [--ext] in the [lint] script. *)
Definition lintExtensions : list string :=
match optionValue "--ext" (Scripts.words (script "lint")) with
| Some v => Str.split "," v
| None => []
end.

(** The extensions the [format] script's glob selects, with their
  dot. *)
Definition formatExtensions : list string :=
match rev (Scripts.words (script "format")) with
| glob :: _ => map (fun e => "." ++ e) (braceAlternatives glob)
| [] => []
end.

(** The extensions the import resolver of [.eslintrc.json] tries. *)
Definition resolverExtensions : list string :=
match at_path ["settings"; "import/resolver"; "node"; "extensions"]
              Eslint.eslintrc with
| Some j => match stringArray j with Some ss => ss | None => [] end
| None => []
end.

(** A list without its repetitions, first occurrences kept. *)
Fixpoint dedup (l : list string) : list string :=
match l with
| [] => []
| x :: rest => x :: filter (fun y => negb (y =? x)) (dedup rest)
end.

End Extensions.

(** ** What the project files refer to *)

Module Project.

Definition includes (j : json) : list string :=
match member "include" j with
| Some a => match stringArray a with Some ss => ss | None => [] end
| None => []
end.

(** The [path] of every entry of [references]. *)
Definition referencePaths (j : json) : list string :=
match member "references" j with
| Some (JArr refs) =>
    flat_map (fun r => match member "path" r with
                       | Some (JStr p) => [p]
                       | _ => []
                       end) refs
| _ => []
end.

(** A path without a leading [./]. *)
Definition plain (p : string) : string :=
match Str.stripPrefix "./" p with
| Some rest => rest
| None => p
end.

(** The first segment of a relative path. *)
Definition topDirectory (p : string) : string :=
match Str.split "/" (plain p) with
| d :: _ => d
| [] => ""
end.

(** Every substitution of [paths], in order. *)
Definition pathTargets : list string := flat_map snd Tsconfig.paths.

End Project.

(** ** The ESLint configuration as the guide prints it *)

Module Readme.

(** The first ESLint block of the guide ([src/README.md], lines
  256-327), without its comments. *)
Definition eslint_block_first : json :=
JObj [
  ("env", JObj [
    ("browser", JBool true);
    ("es6", JBool true);
    ("node", JBool true)
  ]);
  ("extends", JArr [
    JStr "eslint:recommended";
    JStr "plugin:react/recommended";
    JStr "plugin:react-hooks/recommended";
    JStr "plugin:@typescript-eslint/eslint-recommended";
    JStr "plugin:@typescript-eslint/recommended";
    JStr "plugin:import/warnings";
    JStr "plugin:import/typescript";
    JStr "prettier"
  ]);
  ("parser", JStr "@typescript-eslint/parser");
  ("parserOptions", JObj [
    ("ecmaVersion", JStr "latest");
    ("sourceType", JStr "module");
    ("ecmaFeatures", JObj [
      ("jsx", JBool true)
    ])
  ]);
  ("plugins", JArr [
    JStr "react";
    JStr "react-refresh";
    JStr "react-hooks";
    JStr "import";
    JStr "@typescript-eslint";
    JStr "prettier"
  ]);
  ("rules", JObj [
    ("react/jsx-key", JStr "warn");
    ("react/prop-types", JStr "off");
    ("react/display-name", JStr "warn");
    ("react/no-children-prop", JStr "warn");
    ("react/react-in-jsx-scope", JStr "off");
    ("react/button-has-type", JStr "warn");
    ("react-hooks/exhaustive-deps", JStr "off");
    ("react-hooks/rules-of-hooks", JStr "error");
    ("@typescript-eslint/no-unused-vars", JStr "warn");
    ("no-case-declarations", JStr "warn");
    ("no-console", JStr "warn");
    ("react-refresh/only-export-components", JStr "warn");
    ("@typescript-eslint/explicit-function-return-type", JStr "off");
    ("@typescript-eslint/no-explicit-any", JStr "warn");
    ("no-unsafe-optional-chaining", JStr "warn");
    ("import/order", JArr [
      JStr "error";
      JObj [
        ("groups", JArr [
          JStr "builtin";
          JStr "external";
          JStr "internal";
          JStr "parent";
          JStr "sibling"
        ])
      ]
    ]);
    ("prettier/prettier", JArr [
      JStr "warn";
      JObj [
        ("endOfLine", JStr "auto")
      ]
    ])
  ]);
  ("settings", JObj [
    ("react", JObj [
      ("version", JStr "detect")
    ]);
    ("import/resolver", JObj [
      ("node", JObj [
        ("extensions", JArr [JStr ".js"; JStr ".jsx"; JStr ".ts"; JStr ".tsx"])
      ])
    ])
  ])
].

(** The second ESLint block of the guide ([src/README.md], lines
  337-408), without its comments. *)
Definition eslint_block_second : json :=
JObj [
  ("env", JObj [
    ("browser", JBool true);
    ("es6", JBool true);
    ("node", JBool true)
  ]);
  ("extends", JArr [
    JStr "eslint:recommended";
    JStr "plugin:react/recommended";
    JStr "plugin:react-hooks/recommended";
    JStr "plugin:@typescript-eslint/eslint-recommended";
    JStr "plugin:@typescript-eslint/recommended";
    JStr "plugin:import/warnings";
    JStr "plugin:import/typescript";
    JStr "prettier"
  ]);
  ("parser", JStr "@typescript-eslint/parser");
  ("parserOptions", JObj [
    ("ecmaVersion", JStr "latest");
    ("sourceType", JStr "module");
    ("ecmaFeatures", JObj [
      ("jsx", JBool true)
    ])
  ]);
  ("plugins", JArr [
    JStr "react";
    JStr "react-refresh";
    JStr "react-hooks";
    JStr "import";
    JStr "@typescript-eslint";
    JStr "prettier"
  ]);
  ("rules", JObj [
    ("react/jsx-key", JStr "warn");
    ("react/prop-types", JStr "off");
    ("react/display-name", JStr "warn");
    ("react/no-children-prop", JStr "warn");
    ("react/react-in-jsx-scope", JStr "off");
    ("react/button-has-type", JStr "warn");
    ("react-hooks/exhaustive-deps", JStr "off");
    ("react-hooks/rules-of-hooks", JStr "error");
    ("@typescript-eslint/no-unused-vars", JStr "warn");
    ("no-case-declarations", JStr "warn");
    ("no-console", JStr "warn");
    ("react-refresh/only-export-components", JStr "warn");
    ("@typescript-eslint/explicit-function-return-type", JStr "off");
    ("@typescript-eslint/no-explicit-any", JStr "warn");
    ("no-unsafe-optional-chaining", JStr "warn");
    ("import/order", JArr [
      JStr "error";
      JObj [
        ("groups", JArr [
          JStr "builtin";
          JStr "external";
          JStr "internal";
          JStr "parent";
          JStr "sibling"
        ])
      ]
    ]);
    ("prettier/prettier", JArr [
      JStr "warn";
      JObj [
        ("endOfLine", JStr "auto")
      ]
    ])
  ]);
  ("settings", JObj [
    ("react", JObj [
      ("version", JStr "detect")
    ]);
    ("import/resolver", JObj [
      ("node", JObj [
        ("extensions", JArr [JStr ".js"; JStr ".jsx"; JStr ".ts"; JStr ".tsx"])
      ])
    ])
  ])
].

End Readme.

(* ================================================================== *)
(** * Part II: properties *)
(* ================================================================== *)

(** ** Lists of strings *)

Lemma mem_In (x : string) (l : list string) :
  Str.mem x l = true <-> In x l.
Proof.
  unfold Str.mem. rewrite existsb_exists. split.
  - intros [y [Hy Heq]]. apply String.eqb_eq in Heq. now subst.
  - intros H. exists x. split; [assumption | apply String.eqb_refl].
Qed.

Lemma inclb_incl (l1 l2 : list string) :
  forallb (fun x => Str.mem x l2) l1 = true -> incl l1 l2.
Proof.
  intros H x Hx. rewrite forallb_forall in H. now apply mem_In, H.
Qed.

Lemma distinct_NoDup (l : list string) : Str.distinct l = true -> NoDup l.
Proof.
  induction l as [|x l IH]; simpl; intros H; constructor.
  - apply andb_prop in H as [H _]. apply negb_true_iff in H.
    intros Hin. apply mem_In in Hin. congruence.
  - apply andb_prop in H as [_ H]. now apply IH.
Qed.

(** ** Splitting and resolving paths *)

Lemma split_not_nil (c : ascii) (s : string) : Str.split c s <> [].
Proof.
  destruct s as [|a s]; simpl; [discriminate|].
  destruct (Ascii.eqb a c); [discriminate|].
  destruct (Str.split c s); discriminate.
Qed.

Lemma split_app_sep (c : ascii) (a b : string) :
  Str.split c (a ++ String c b) = (Str.split c a ++ Str.split c b)%list.
Proof.
  induction a as [|x a IH]; simpl.
  - now rewrite Ascii.eqb_refl.
  - destruct (Ascii.eqb x c); [now rewrite IH|].
    rewrite IH. pose proof (split_not_nil c a) as Hne.
    destruct (Str.split c a); [contradiction | reflexivity].
Qed.

Lemma normalizeFrom_app (allow : bool) (st : list string) (xs ys : list string) :
  Path.normalizeFrom allow st (xs ++ ys)%list
  = Path.normalizeFrom allow (Path.normalizeFrom allow st xs) ys.
Proof. unfold Path.normalizeFrom. apply fold_left_app. Qed.

(** Joining relative arguments never yields an absolute path, and
    normalising the joined text walks the segments of the arguments in
    order. *)
Lemma joinFromRight_relative (rels : list string) :
  Forall Path.relative rels ->
  snd (Path.joinFromRight rels) = false /\
  forall allow st,
    Path.normalizeFrom allow st (Str.split "/" (fst (Path.joinFromRight rels)))
    = Path.normalizeFrom allow st (flat_map (Str.split "/") rels).
Proof.
  induction 1 as [|r rels Hr _ [IHabs IHwalk]]; simpl.
  - split; [reflexivity | intros; reflexivity].
  - destruct (Path.joinFromRight rels) as [tail absolute] eqn:E.
    simpl in IHabs, IHwalk. subst absolute.
    destruct (r =? "") eqn:Er; simpl.
    + apply String.eqb_eq in Er. subst r. split; [reflexivity|].
      intros allow st. rewrite IHwalk. reflexivity.
    + split; [exact Hr|]. intros allow st.
      change (r ++ "/" ++ tail) with (r ++ String "/" tail).
      rewrite split_app_sep, !normalizeFrom_app, IHwalk. reflexivity.
Qed.

(** With an absolute first argument, the working directory plays no
    part: the result is absolute and is reached by walking the rest of
    the arguments from the normalised first one. *)
Lemma resolved_from_absolute (cwd dir : string) (rels : list string) :
  Path.isAbsolute dir = true ->
  Forall Path.relative rels ->
  Path.resolvedAbsolute cwd (dir :: rels) = true /\
  Path.resolvedSegments cwd (dir :: rels)
  = rev (Path.normalizeFrom false
           (Path.normalizeFrom false [] (Str.split "/" dir))
           (flat_map (Str.split "/") rels)).
Proof.
  intros Habs Hrel.
  destruct (joinFromRight_relative rels Hrel) as [Hsnd Hwalk].
  assert (Hdir : (dir =? "") = false)
    by (destruct dir; [discriminate | reflexivity]).
  assert (Hjoin : Path.joinFromRight (cwd :: dir :: rels)
                  = (dir ++ String "/" (fst (Path.joinFromRight rels)), true)).
  { simpl. destruct (Path.joinFromRight rels) as [tail absolute].
    simpl in Hsnd |- *. subst absolute. rewrite Hdir, Habs. reflexivity. }
  unfold Path.resolvedAbsolute, Path.resolvedSegments. rewrite Hjoin.
  split; [reflexivity|]. simpl negb.
  rewrite split_app_sep, normalizeFrom_app, Hwalk. reflexivity.
Qed.

(** Descending: when the remaining arguments only add the segments
    [sub], the resolved path is the resolved first argument followed by
    [sub]. *)
Lemma resolved_descends (cwd dir : string) (rels sub : list string) :
  Path.isAbsolute dir = true ->
  Forall Path.relative rels ->
  (forall st, Path.normalizeFrom false st (flat_map (Str.split "/") rels)
              = (rev sub ++ st)%list) ->
  Path.resolvedSegments cwd (dir :: rels)
  = (Path.resolvedSegments cwd [dir] ++ sub)%list.
Proof.
  intros Habs Hrel Hsub.
  destruct (resolved_from_absolute cwd dir rels Habs Hrel) as [_ ->].
  destruct (resolved_from_absolute cwd dir [] Habs (Forall_nil _)) as [_ ->].
  rewrite Hsub, rev_app_distr, rev_involutive. reflexivity.
Qed.

(** Two argument lists that walk the same way from the same absolute
    directory resolve to the same path. *)
Lemma resolve_same_walk (cwd dir : string) (rels1 rels2 : list string) :
  Path.isAbsolute dir = true ->
  Forall Path.relative rels1 ->
  Forall Path.relative rels2 ->
  (forall st, Path.normalizeFrom false st (flat_map (Str.split "/") rels1)
              = Path.normalizeFrom false st (flat_map (Str.split "/") rels2)) ->
  Path.resolve cwd (dir :: rels1) = Path.resolve cwd (dir :: rels2).
Proof.
  intros Habs H1 H2 Hwalk.
  destruct (resolved_from_absolute cwd dir rels1 Habs H1) as [Ha1 Hs1].
  destruct (resolved_from_absolute cwd dir rels2 Habs H2) as [Ha2 Hs2].
  unfold Path.resolve. rewrite Ha1, Ha2, Hs1, Hs2, Hwalk. reflexivity.
Qed.

(** ** The Vite configuration *)

Section ViteConfig.

Context {PluginOption : Type}.
Variable cwd : string.
Variable __dirname : string.
Variable react : unit -> PluginOption.

Let config : Vite.UserConfig := Vite.vite_config cwd __dirname react.
Let aliases : list (string * string) := Vite.alias (Vite.resolve config).

(** Loading the module text yields one export, the configuration
    record. *)
Lemma load_vite_config_module :
  Vite.load cwd __dirname react Vite.vite_config_module
  = Some [("default", Vite.configValue config)].
Proof. reflexivity. Qed.

(** Every alias value is [path.resolve(__dirname, p)] for the [p]
    written at its key. *)
Lemma aliases_from_arguments :
  map (fun kv => (fst kv, option_map (fun p => Path.resolve cwd [__dirname; p])
                                     (snd kv)))
      (Vite.aliasArguments Vite.vite_config_module)
  = map (fun kv => (fst kv, Some (snd kv))) aliases.
Proof. reflexivity. Qed.

(** C3: [vite.config.ts] has exactly one export, the default one; its
    value is the configuration object, whose [resolve.alias] is a
    record from alias strings to resolved paths and whose [plugins] is
    a list. *)
Theorem vite_config_default_export :
  Js.exportNames Vite.vite_config_module = ["default"] /\
  length (Js.defaultExports Vite.vite_config_module) = 1 /\
  exists exported,
    Vite.load cwd __dirname react Vite.vite_config_module
    = Some [("default", exported)] /\
    exported = Vite.configValue config /\
    Vite.aliasEntries exported
    = Some (map (fun kv => (fst kv, Vite.VStr (snd kv))) aliases) /\
    NoDup (map fst aliases) /\
    Vite.pluginList exported = Some [Vite.VPlugin (react tt)].
Proof.
  split; [reflexivity|]. split; [reflexivity|].
  exists (Vite.configValue config).
  repeat split; try reflexivity.
  apply distinct_NoDup. reflexivity.
Qed.

(** C8: the Vite configuration printed in the guide is the one of
    [vite.config.ts]: the same statements, hence the same eleven alias
    keys with the same targets in the same order and the same
    one-element plugin list. *)
Theorem readme_vite_config_agrees :
  Vite.readme_vite_module = Vite.vite_config_module /\
  Vite.aliasArguments Vite.readme_vite_module
  = Vite.aliasArguments Vite.vite_config_module /\
  length (Vite.aliasArguments Vite.vite_config_module) = 11 /\
  exists exported,
    Vite.load cwd __dirname react Vite.readme_vite_module
    = Some [("default", exported)] /\
    Vite.load cwd __dirname react Vite.vite_config_module
    = Some [("default", exported)] /\
    Vite.aliasEntries exported
    = Some (map (fun kv => (fst kv, Vite.VStr (snd kv))) aliases) /\
    length aliases = 11 /\
    Vite.pluginList exported = Some [Vite.VPlugin (react tt)].
Proof.
  split; [reflexivity|]. split; [reflexivity|]. split; [reflexivity|].
  exists (Vite.configValue config). repeat split; reflexivity.
Qed.

(** C7: no file of the repository defines a function.  The only
    program text is [vite.config.ts] and its copy in the guide; after its imports the module is a single [export default],
    every call in it goes to an imported binding, it reads nothing but
    those bindings and [__dirname], and running it builds the
    configuration record.  The other documents are JSON data. *)
Theorem repository_has_no_program_logic :
  map fst Repository.files = ["README.md"; "vite.config.ts"; ".eslintrc.json"] /\
  map fst Repository.modules = ["README.md"; "vite.config.ts"] /\
  Forall
    (fun fm =>
       let m := snd fm in
       m = Vite.vite_config_module /\
       Js.moduleFunctionCount m = 0 /\
       Repository.body m = map Js.SExportDefault (Js.defaultExports m) /\
       length (Js.defaultExports m) = 1 /\
       Forall (fun callee =>
                 exists x, Js.headVar callee = Some x /\
                           In x (Repository.imported m))
              (flat_map Js.callees (Js.defaultExports m)) /\
       incl (flat_map Js.freeVars (Js.defaultExports m))
            ("__dirname" :: Repository.imported m) /\
       Vite.load cwd __dirname react m
       = Some [("default", Vite.configValue config)])
    Repository.modules.
Proof.
  split; [reflexivity|]. split; [reflexivity|].
  assert (Hstatic :
    let m := Vite.vite_config_module in
    m = Vite.vite_config_module /\
    Js.moduleFunctionCount m = 0 /\
    Repository.body m = map Js.SExportDefault (Js.defaultExports m) /\
    length (Js.defaultExports m) = 1 /\
    Forall (fun callee =>
              exists x, Js.headVar callee = Some x /\
                        In x (Repository.imported m))
           (flat_map Js.callees (Js.defaultExports m)) /\
    incl (flat_map Js.freeVars (Js.defaultExports m))
         ("__dirname" :: Repository.imported m) /\
    Vite.load cwd __dirname react m
    = Some [("default", Vite.configValue config)]).
  { repeat split; try reflexivity.
    - vm_compute.
      repeat (constructor;
              [eexists; split; [reflexivity | simpl; tauto] |]).
      constructor.
    - apply inclb_incl. vm_compute. reflexivity. }
  constructor; [exact Hstatic|]. constructor; [exact Hstatic|]. constructor.
Qed.

End ViteConfig.

Lemma normalizeFrom_plain (allow : bool) (sub st : list string) :
  forallb Path.plainSegment sub = true ->
  Path.normalizeFrom allow st sub = (rev sub ++ st)%list.
Proof.
  revert st. induction sub as [|seg sub IH]; intros st Hplain; [reflexivity|].
  simpl in Hplain. apply andb_prop in Hplain as [Hseg Hsub].
  change (Path.normalizeFrom allow st (seg :: sub))
    with (Path.normalizeFrom allow (Path.normalizeStep allow st seg) sub).
  rewrite (IH _ Hsub). simpl. rewrite <- app_assoc. simpl.
  unfold Path.plainSegment in Hseg. apply negb_true_iff in Hseg.
  apply orb_false_elim in Hseg as [Hseg Hdd].
  unfold Path.normalizeStep. rewrite Hseg, Hdd. reflexivity.
Qed.

Lemma split_dot_relative (p : string) (rest : list string) :
  Str.split "/" p = "." :: rest -> Path.relative p.
Proof.
  unfold Path.relative. destruct p as [|a p]; [reflexivity|]. simpl.
  destruct (Ascii.eqb a "/"); [discriminate | reflexivity].
Qed.

(** Resolving [./<plain segments>] against an absolute directory
    appends the segments to it. *)
Lemma resolved_dot_path (cwd dir p : string) (sub : list string) :
  Path.isAbsolute dir = true ->
  Str.split "/" p = "." :: sub ->
  forallb Path.plainSegment sub = true ->
  Path.resolvedSegments cwd [dir; p]
  = (Path.resolvedSegments cwd [dir] ++ sub)%list.
Proof.
  intros Habs Hsplit Hplain.
  apply resolved_descends; [exact Habs | |].
  - constructor; [exact (split_dot_relative p sub Hsplit) | constructor].
  - intros st. simpl. rewrite app_nil_r, Hsplit.
    change (Path.normalizeFrom false st ("." :: sub))
      with (Path.normalizeFrom false st sub).
    now apply normalizeFrom_plain.
Qed.

Lemma belowSrc_spec (p : string) (sub : list string) :
  Vite.belowSrc p = Some sub ->
  Str.split "/" p = "." :: "src" :: sub /\
  forallb Path.plainSegment ("src" :: sub) = true.
Proof.
  unfold Vite.belowSrc.
  destruct (Str.split "/" p) as [|dot [|src rest]]; try discriminate.
  destruct (dot =? ".") eqn:Ed; [|discriminate].
  destruct (src =? "src") eqn:Es; [|discriminate].
  destruct (forallb Path.plainSegment rest) eqn:Ep; [|discriminate].
  simpl. intros [= <-].
  apply String.eqb_eq in Ed, Es. subst. split; [reflexivity | exact Ep].
Qed.

(** Going through a base directory [./] first changes nothing. *)
Lemma resolve_through_dot (cwd dir d : string) :
  Path.isAbsolute dir = true ->
  Path.relative d ->
  Path.resolve cwd [dir; "./"; d] = Path.resolve cwd [dir; "./" ++ d].
Proof.
  intros Habs Hd. apply resolve_same_walk; [exact Habs | | |].
  - repeat constructor. exact Hd.
  - repeat constructor.
  - intros st. cbn [flat_map]. rewrite !app_nil_r.
    change (Str.split "/" ("./" ++ d))
      with (Str.split "/" ("." ++ String "/" d)).
    rewrite split_app_sep. reflexivity.
Qed.

Lemma includedIn_incl (l1 l2 : list (string * list string)) :
  Tsconfig.includedIn l1 l2 = true -> incl l1 l2.
Proof.
  unfold Tsconfig.includedIn. rewrite forallb_forall. intros H x Hx.
  specialize (H x Hx). now destruct (in_dec Tsconfig.entry_eq_dec x l2).
Qed.

Section ViteAliases.

Context {PluginOption : Type}.
Variable cwd : string.
Variable __dirname : string.
Variable react : unit -> PluginOption.

Let config : Vite.UserConfig := Vite.vite_config cwd __dirname react.
Let aliases : list (string * string) := Vite.alias (Vite.resolve config).

Lemma aliases_from_table :
  aliases
  = map (fun kp => (fst kp, Path.resolve cwd [__dirname; snd kp]))
        (Vite.aliasTable Vite.vite_config_module).
Proof. reflexivity. Qed.

Lemma aliasTable_arguments (m : Js.module) (k p : string) :
  In (k, p) (Vite.aliasTable m) -> In (k, Some p) (Vite.aliasArguments m).
Proof.
  unfold Vite.aliasTable. rewrite in_flat_map.
  intros [[k' [p'|]] [Hin Hkp]]; simpl in Hkp; [|contradiction].
  destruct Hkp as [[= <- <-] | []]. exact Hin.
Qed.

(** C9: every alias value is [path.resolve(__dirname, p)] where [p] is
    [./src] or a path below [./src], so that it resolves to the [src]
    directory of the project or to a directory below it; the target is
    [src] itself for the key [@] only, and [@] is the last of the
    eleven entries, after ten longer keys that start with [@]. *)
Theorem alias_targets_inside_src
    (Habs : Path.isAbsolute __dirname = true) :
  (forall k v, In (k, v) aliases ->
     exists p sub,
       In (k, Some p) (Vite.aliasArguments Vite.vite_config_module) /\
       v = Path.resolve cwd [__dirname; p] /\
       Str.split "/" p = "." :: "src" :: sub /\
       Path.resolvedSegments cwd [__dirname; p]
       = (Path.resolvedSegments cwd [__dirname] ++ "src" :: sub)%list /\
       (sub = [] <-> k = "@")) /\
  (exists specific,
     aliases = (specific ++ [("@", Path.resolve cwd [__dirname; "./src"])])%list /\
     length specific = 10 /\
     Forall (fun kv => Str.startsWith (fst kv) "@" = true /\ fst kv <> "@")
            specific).
Proof.
  split.
  - intros k v Hin. rewrite aliases_from_table in Hin.
    apply in_map_iff in Hin as [[k' p] [[= <- <-] Hin]]. cbn [fst snd].
    assert (Hall : forallb
              (fun kp => match Vite.belowSrc (snd kp) with
                         | Some sub => Bool.eqb (Vite.isNil sub) (fst kp =? "@")
                         | None => false
                         end)
              (Vite.aliasTable Vite.vite_config_module) = true)
      by (vm_compute; reflexivity).
    rewrite forallb_forall in Hall. specialize (Hall _ Hin). cbn [fst snd] in Hall.
    destruct (Vite.belowSrc p) as [sub|] eqn:Hsub; [|discriminate].
    apply belowSrc_spec in Hsub as [Hsplit Hplain].
    exists p, sub. split; [exact (aliasTable_arguments _ _ _ Hin)|].
    split; [reflexivity|]. split; [exact Hsplit|].
    split; [now apply resolved_dot_path|].
    apply Bool.eqb_prop in Hall. rewrite <- String.eqb_eq, <- Hall.
    destruct sub; simpl; split; congruence.
  - exists (firstn 10 aliases). split; [reflexivity|]. split; [reflexivity|].
    repeat (constructor; [split; [reflexivity | discriminate] |]).
    constructor.
Qed.

(** C1: the bundler's [resolve.alias] and the type checker's [paths]
    declare the same alias prefixes, and each prefix stands for the
    same directory under [src] in both: every alias entry has a
    [paths] entry with that prefix whose single substitution, taken
    from [baseUrl], resolves to the alias value, and conversely.

    [tsconfig.json] is read from the directory of [vite.config.ts]:
    it refers to [./tsconfig.node.json], which includes
    [vite.config.ts] by that name. *)
Theorem alias_maps_agree
    (Habs : Path.isAbsolute __dirname = true) :
  (forall k, In k (map fst aliases) <-> In k (map fst Tsconfig.pathAliases)) /\
  (forall k v, In (k, v) aliases ->
     exists d,
       In (k, [d]) Tsconfig.pathAliases /\
       Path.resolve cwd [__dirname; Tsconfig.baseUrl; d] = v) /\
  (forall k ds, In (k, ds) Tsconfig.pathAliases ->
     exists d,
       ds = [d] /\
       In (k, Path.resolve cwd [__dirname; Tsconfig.baseUrl; d]) aliases) /\
  NoDup (map fst aliases) /\
  NoDup (map fst Tsconfig.pathAliases).
Proof.
  assert (Hrel : forall k ds d,
             In (k, ds) Tsconfig.pathAliases -> In d ds -> Path.relative d).
  { intros k ds d Hin Hd.
    assert (Hall : forallb
              (fun kd => forallb (fun d => negb (Path.isAbsolute d)) (snd kd))
              Tsconfig.pathAliases = true) by (vm_compute; reflexivity).
    rewrite forallb_forall in Hall. specialize (Hall _ Hin).
    rewrite forallb_forall in Hall. specialize (Hall _ Hd).
    now apply negb_true_iff in Hall. }
  assert (Hto : forall k v, In (k, v) aliases ->
            exists d, In (k, [d]) Tsconfig.pathAliases /\
              Path.resolve cwd [__dirname; Tsconfig.baseUrl; d] = v).
  { intros k v Hin. rewrite aliases_from_table in Hin.
    apply in_map_iff in Hin as [[k' p] [[= <- <-] Hin]]. cbn [fst snd].
    apply (in_map (fun kp => (fst kp, [snd kp]))) in Hin.
    apply (includedIn_incl _ Tsconfig.checkerView) in Hin;
      [| vm_compute; reflexivity].
    apply in_map_iff in Hin as [[k ds] [E Hin]]. cbn [fst snd] in E.
    destruct ds as [|d [|d' ds]]; try discriminate E.
    injection E as <- <-. exists d. split; [exact Hin|].
    apply (resolve_through_dot cwd __dirname d Habs).
    apply (Hrel k [d] d Hin). now left. }
  assert (Hfrom : forall k ds, In (k, ds) Tsconfig.pathAliases ->
            exists d, ds = [d] /\
              In (k, Path.resolve cwd [__dirname; Tsconfig.baseUrl; d]) aliases).
  { intros k ds Hin. pose proof Hin as Hin'.
    apply (in_map (fun kd => (fst kd,
                              map (fun d => Tsconfig.baseUrl ++ d) (snd kd))))
      in Hin'.
    apply (includedIn_incl _
             (Tsconfig.bundlerView (Vite.aliasTable Vite.vite_config_module)))
      in Hin'; [| vm_compute; reflexivity].
    apply in_map_iff in Hin' as [[k' p] [E Hp]]. cbn [fst snd] in E.
    destruct ds as [|d [|d' ds]]; try discriminate E.
    injection E as -> ->. exists d. split; [reflexivity|].
    rewrite aliases_from_table.
    apply in_map_iff. exists (k, Tsconfig.baseUrl ++ d).
    split; [|exact Hp]. cbn [fst snd]. f_equal. symmetry.
    apply (resolve_through_dot cwd __dirname d Habs).
    apply (Hrel k [d] d Hin). now left. }
  split; [|split; [exact Hto | split; [exact Hfrom|]]].
  - intros k. rewrite !in_map_iff. split.
    + intros [[k' v] [<- Hin]]. destruct (Hto _ _ Hin) as [d [Hd _]].
      now exists (k', [d]).
    + intros [[k' ds] [<- Hin]]. destruct (Hfrom _ _ Hin) as [d [_ Hd]].
      now exists (k', Path.resolve cwd [__dirname; Tsconfig.baseUrl; d]).
  - split; apply distinct_NoDup; vm_compute; reflexivity.
Qed.

End ViteAliases.

(** At [/home/dev/app], the alias [@UI] resolves to a directory under
    [/home/dev/app/src]. *)
Lemma alias_targets_inside_src_witness :
  Path.isAbsolute "/home/dev/app" = true /\
  exists p sub,
    In ("@UI", Some p) (Vite.aliasArguments Vite.vite_config_module) /\
    "/home/dev/app/src/shared/UI" = Path.resolve "/srv" ["/home/dev/app"; p] /\
    Str.split "/" p = "." :: "src" :: sub /\
    Path.resolvedSegments "/srv" ["/home/dev/app"; p]
    = (Path.resolvedSegments "/srv" ["/home/dev/app"] ++ "src" :: sub)%list /\
    (sub = [] <-> "@UI" = "@").
Proof.
  split; [reflexivity|].
  apply (proj1 (alias_targets_inside_src "/srv" "/home/dev/app"
                  (fun _ : unit => tt) eq_refl)
               "@UI" "/home/dev/app/src/shared/UI").
  left. vm_compute. reflexivity.
Defined.

(** At [/home/dev/app], the [paths] entry for [@hooks] resolves to the
    value of the alias [@hooks]. *)
Lemma alias_maps_agree_witness :
  Path.isAbsolute "/home/dev/app" = true /\
  exists d,
    In ("@hooks", [d]) Tsconfig.pathAliases /\
    Path.resolve "/srv" ["/home/dev/app"; Tsconfig.baseUrl; d]
    = "/home/dev/app/src/hooks".
Proof.
  split; [reflexivity|].
  apply (proj1 (proj2 (alias_maps_agree "/srv" "/home/dev/app"
                         (fun _ : unit => tt) eq_refl))
               "@hooks" "/home/dev/app/src/hooks").
  vm_compute. tauto.
Defined.

(** Ten of the eleven [paths] patterns end in a wildcard; [@hooks] is
    written without one, as is its substitution. *)
Lemma paths_without_wildcard :
  filter (fun kv => negb (Tsconfig.hasWildcard (fst kv))) Tsconfig.paths
  = [("@hooks", ["src/hooks"])].
Proof. reflexivity. Qed.

(** ** The ESLint configuration *)

Lemma rulePlugin_prefix (r p : string) :
  Eslint.rulePlugin r = Some p -> Str.startsWith r (p ++ "/") = true.
Proof.
  assert (Hfirst : forall s w, Str.beforeFirst "/" s = Some w ->
                               String.prefix (w ++ "/") s = true).
  { induction s as [|a s IH]; simpl; [discriminate|]. intros w.
    destruct (Ascii.eqb a "/") eqn:Ea.
    - intros [= <-]. apply Ascii.eqb_eq in Ea. subst a. simpl.
      now destruct s.
    - destruct (Str.beforeFirst "/" s) as [w'|]; [|discriminate].
      simpl. intros [= <-]. simpl.
      destruct (ascii_dec a a) as [_|Hne]; [now apply IH | now elim Hne]. }
  assert (Hlast : forall s w, Str.beforeLast "/" s = Some w ->
                              String.prefix (w ++ "/") s = true).
  { induction s as [|a s IH]; simpl; [discriminate|]. intros w.
    destruct (Str.beforeLast "/" s) as [w'|].
    - intros [= <-]. simpl.
      destruct (ascii_dec a a) as [_|Hne]; [now apply IH | now elim Hne].
    - destruct (Ascii.eqb a "/") eqn:Ea; [|discriminate].
      intros [= <-]. apply Ascii.eqb_eq in Ea. subst a. simpl.
      now destruct s. }
  unfold Eslint.rulePlugin, Str.startsWith.
  destruct (Str.includes r "/"); [|discriminate].
  destruct (String.prefix "@" r); [apply Hlast | apply Hfirst].
Qed.

(** C2: every rule name of [.eslintrc.json] is either a rule of ESLint
    itself, with [eslint:recommended] among the [extends] entries, or
    carries the name of a plugin that the [plugins] array declares; the
    plugin is one of [react], [react-hooks], [react-refresh],
    [@typescript-eslint], [import] and [prettier]. *)
Theorem rules_come_from_declared_plugins (r : string) :
  In r Eslint.ruleNames ->
  (Eslint.isCoreRule r = true /\ In "eslint:recommended" Eslint.extends) \/
  (exists p,
     Eslint.rulePlugin r = Some p /\
     Str.startsWith r (p ++ "/") = true /\
     In p Eslint.knownPrefixes /\
     In p Eslint.plugins /\
     In p Eslint.declaredPlugins).
Proof.
  intros Hin.
  assert (Hall : forallb
            (fun r => match Eslint.rulePlugin r with
                      | Some p => Str.mem p Eslint.knownPrefixes
                                  && Str.mem p Eslint.plugins
                      | None => Eslint.isCoreRule r
                                && Str.mem "eslint:recommended" Eslint.extends
                      end)
            Eslint.ruleNames = true) by (vm_compute; reflexivity).
  rewrite forallb_forall in Hall. specialize (Hall r Hin).
  destruct (Eslint.rulePlugin r) as [p|] eqn:Hp.
  - right. exists p. apply andb_prop in Hall as [Hk Hd].
    apply mem_In in Hk, Hd.
    repeat split; try assumption.
    + now apply rulePlugin_prefix.
    + unfold Eslint.declaredPlugins. apply in_or_app. now left.
  - left. apply andb_prop in Hall as [Hc He]. apply mem_In in He. now split.
Qed.

Lemma rules_come_from_declared_plugins_witness :
  In "import/order" Eslint.ruleNames /\
  ((Eslint.isCoreRule "import/order" = true /\
    In "eslint:recommended" Eslint.extends) \/
   (exists p,
      Eslint.rulePlugin "import/order" = Some p /\
      Str.startsWith "import/order" (p ++ "/") = true /\
      In p Eslint.knownPrefixes /\
      In p Eslint.plugins /\
      In p Eslint.declaredPlugins)).
Proof.
  assert (Hin : In "import/order" Eslint.ruleNames) by (vm_compute; tauto).
  split; [exact Hin|].
  exact (rules_come_from_declared_plugins "import/order" Hin).
Defined.

(** The core rules and the plugin of every other rule, as configured. *)
Lemma rule_plugins_computed :
  filter Eslint.isCoreRule Eslint.ruleNames
  = ["no-case-declarations"; "no-console"; "no-unsafe-optional-chaining"] /\
  nodup string_dec (Eslint.somes (map Eslint.rulePlugin Eslint.ruleNames))
  = ["react"; "react-hooks"; "react-refresh"; "@typescript-eslint";
     "import"; "prettier"].
Proof. split; vm_compute; reflexivity. Qed.

(** C4: the top-level keys of [.eslintrc.json] are exactly [env],
    [extends], [parser], [parserOptions], [plugins], [rules] and
    [settings]; [rules] is a map whose values are a severity or a pair
    of a severity and an options object. *)
Theorem eslintrc_shape :
  Json.keys Eslint.eslintrc
  = ["env"; "extends"; "parser"; "parserOptions"; "plugins"; "rules";
     "settings"] /\
  memberIs isObject "env" Eslint.eslintrc = true /\
  memberIs isStringArray "extends" Eslint.eslintrc = true /\
  memberIs isString "parser" Eslint.eslintrc = true /\
  memberIs isObject "parserOptions" Eslint.eslintrc = true /\
  memberIs isStringArray "plugins" Eslint.eslintrc = true /\
  memberIs isObject "settings" Eslint.eslintrc = true /\
  member "rules" Eslint.eslintrc = Some (JObj Eslint.rules) /\
  NoDup Eslint.ruleNames /\
  Forall (fun rule => Eslint.settingShape (snd rule) = true) Eslint.rules.
Proof.
  repeat (split; [reflexivity|]).
  split; [apply distinct_NoDup; reflexivity|].
  apply Forall_forall. apply forallb_forall. reflexivity.
Qed.

(** C10: every configured severity is [off], [warn] or [error];
    [error] is given to [react-hooks/rules-of-hooks] and [import/order]
    and to no other rule, four rules are [off], and the remaining
    eleven are at [warn]. *)
Theorem rule_severities :
  Forall (fun rule =>
            exists sev,
              Eslint.severityOf (snd rule) = Some sev /\
              In sev ["off"; "warn"; "error"])
         Eslint.rules /\
  Eslint.rulesAt "error" = ["react-hooks/rules-of-hooks"; "import/order"] /\
  Eslint.rulesAt "off"
  = ["react/prop-types"; "react/react-in-jsx-scope";
     "react-hooks/exhaustive-deps";
     "@typescript-eslint/explicit-function-return-type"] /\
  Forall (fun rule =>
            Eslint.hasSeverity "warn" rule
            = negb (Str.mem (fst rule) (Eslint.rulesAt "error"))
              && negb (Eslint.hasSeverity "off" rule))
         Eslint.rules /\
  length (Eslint.rulesAt "warn") = 11 /\
  length Eslint.rules = 17.
Proof.
  split.
  - apply Forall_forall. intros rule Hin.
    assert (Hall : forallb
              (fun rule => match Eslint.severityOf (snd rule) with
                           | Some sev => Eslint.isSeverity sev
                           | None => false
                           end) Eslint.rules = true) by (vm_compute; reflexivity).
    rewrite forallb_forall in Hall. specialize (Hall rule Hin).
    destruct (Eslint.severityOf (snd rule)) as [sev|]; [|discriminate].
    exists sev. split; [reflexivity|]. now apply mem_In.
  - repeat (split; [reflexivity|]). split; [|split; reflexivity].
    apply Forall_forall. intros rule Hin.
    assert (Hall : forallb
              (fun rule =>
                 Bool.eqb (Eslint.hasSeverity "warn" rule)
                   (negb (Str.mem (fst rule) (Eslint.rulesAt "error"))
                    && negb (Eslint.hasSeverity "off" rule)))
              Eslint.rules = true) by (vm_compute; reflexivity).
    rewrite forallb_forall in Hall. now apply Bool.eqb_prop, Hall.
Qed.

(** ** The TypeScript project files *)

(** C5, counterexample: not every documented project file has a
    [references] array next to [compilerOptions] and [include];
    [tsconfig.node.json] has no [references] member. *)
Lemma tsconfig_node_has_no_references :
  ~ (forall name j, In (name, j) Tsconfig.documented ->
       Tsconfig.compilerOptionsShape j = true /\
       Tsconfig.hasInclude j = true /\
       Tsconfig.hasReferences j = true).
Proof.
  intros H.
  destruct (H "tsconfig.node.json" Tsconfig.tsconfig_node_json) as [_ [_ Href]].
  - right. left. reflexivity.
  - vm_compute in Href. discriminate Href.
Qed.

(** C5, amended: each of the three documented project files is an
    object with a [compilerOptions] record naming the target, the module
    system, the library set and the [strict] flag, and with an [include]
    array of strings; a [references] array and a [paths] map are
    declared by [tsconfig.json] and by neither of the other two. *)
Theorem tsconfig_shapes (name : string) (j : json) :
  In (name, j) Tsconfig.documented ->
  isObject j = true /\
  Tsconfig.compilerOptionsShape j = true /\
  Tsconfig.hasInclude j = true /\
  Tsconfig.hasReferences j = (name =? "tsconfig.json") /\
  hasMember "references" j = (name =? "tsconfig.json") /\
  Tsconfig.hasPaths j = (name =? "tsconfig.json").
Proof.
  intros Hin.
  destruct Hin as [E | [E | [E | []]]]; injection E as <- <-;
    repeat split; reflexivity.
Qed.

Lemma tsconfig_shapes_witness :
  In ("tsconfig.app.json", Tsconfig.tsconfig_app_json) Tsconfig.documented /\
  isObject Tsconfig.tsconfig_app_json = true /\
  Tsconfig.compilerOptionsShape Tsconfig.tsconfig_app_json = true /\
  Tsconfig.hasInclude Tsconfig.tsconfig_app_json = true /\
  Tsconfig.hasReferences Tsconfig.tsconfig_app_json = false /\
  hasMember "references" Tsconfig.tsconfig_app_json = false /\
  Tsconfig.hasPaths Tsconfig.tsconfig_app_json = false.
Proof.
  assert (Hin : In ("tsconfig.app.json", Tsconfig.tsconfig_app_json)
                   Tsconfig.documented) by (right; right; left; reflexivity).
  split; [exact Hin|].
  exact (tsconfig_shapes "tsconfig.app.json" Tsconfig.tsconfig_app_json Hin).
Defined.

Lemma documented_names :
  map fst Tsconfig.documented
  = ["tsconfig.json"; "tsconfig.node.json"; "tsconfig.app.json"].
Proof. reflexivity. Qed.

(** ** The NPM scripts *)

(** C6: the scripts are [dev], [build], [lint], [format] and [preview];
    each runs the tool the guide names for it, once and with the
    arguments written in the script ([build] runs [tsc] and then
    [vite], joined by [&&]); no script expands a parameter, substitutes
    a command, pipes, redirects, sequences, branches or sets an exit
    status. *)
Theorem scripts_invoke_tools :
  map fst Scripts.scripts = ["dev"; "build"; "lint"; "format"; "preview"] /\
  length (entries (match member "scripts" Scripts.package_json with
                   | Some s => s
                   | None => JNull
                   end)) = 5 /\
  map (fun kc => (fst kc, Scripts.programs (snd kc))) Scripts.scripts
  = [("dev", ["vite"]);
     ("build", ["tsc"; "vite"]);
     ("lint", ["eslint"]);
     ("format", ["prettier-eslint"]);
     ("preview", ["vite"])] /\
  map (fun kc => (fst kc, Scripts.invocations (snd kc))) Scripts.scripts
  = [("dev", [["vite"; "--port=4000"; "--host"]]);
     ("build", [["tsc"; "-b"]; ["vite"; "build"]]);
     ("lint", [["eslint"; "."; "--ext"; ".js,.js,.jsx,.ts,.tsx"]]);
     ("format", [["prettier-eslint"; "--write"; "src/**/*.{js,jsx,ts,tsx}"]]);
     ("preview", [["vite"; "preview"]])] /\
  map fst (filter (fun kc => Str.mem "&&" (Scripts.words (snd kc)))
                  Scripts.scripts)
  = ["build"] /\
  Forall (fun kc =>
            Scripts.usesShellLogic (snd kc) = false /\
            Scripts.usesShellKeyword (snd kc) = false)
         Scripts.scripts.
Proof.
  repeat (split; [vm_compute; reflexivity|]).
  vm_compute. repeat (constructor; [split; reflexivity|]). constructor.
Qed.

(** ** Reading a resolved path back *)

Lemma split_sepFree (s : string) :
  Forall (fun w => Segments.sepFree w = true) (Str.split "/" s).
Proof.
  unfold Segments.sepFree.
  induction s as [|a s IH]; simpl; [repeat constructor|].
  destruct (Ascii.eqb a "/") eqn:Ea; [constructor; [reflexivity | exact IH]|].
  destruct (Str.split "/" s) as [|w ws]; [repeat constructor; simpl; now rewrite Ea|].
  inversion IH as [|? ? Hw Hws]; subst. constructor; [|exact Hws].
  simpl. now rewrite Ea.
Qed.

Lemma split_of_sepFree (w : string) :
  Segments.sepFree w = true -> Str.split "/" w = [w].
Proof.
  unfold Segments.sepFree. rewrite negb_true_iff.
  induction w as [|a w IH]; simpl; [reflexivity|]. intros H.
  apply orb_false_elim in H as [Ea Hw]. rewrite Ea, (IH Hw). reflexivity.
Qed.

(** Splitting a joined list of segments gives the segments back. *)
Lemma split_concat (l : list string) :
  l <> [] ->
  Forall (fun w => Segments.sepFree w = true) l ->
  Str.split "/" (String.concat "/" l) = l.
Proof.
  induction l as [|x l IH]; [congruence|]. intros _ Hall.
  inversion Hall as [|? ? Hx Hl]; subst.
  destruct l as [|y l]; [now apply split_of_sepFree|].
  change (String.concat "/" (x :: y :: l))
    with (x ++ String "/" (String.concat "/" (y :: l))).
  rewrite split_app_sep, (split_of_sepFree x Hx), IH; [reflexivity | discriminate | exact Hl].
Qed.

Lemma flat_map_split_sepFree (l : list string) :
  Forall (fun w => Segments.sepFree w = true) l ->
  flat_map (Str.split "/") l = l.
Proof.
  induction 1 as [|w l Hw _ IH]; simpl; [reflexivity|].
  now rewrite (split_of_sepFree w Hw), IH.
Qed.

(** Normalising below the root keeps plain, separator-free segments. *)
Lemma normalizeFrom_keeps (P : string -> Prop) (segs st : list string) :
  Forall P st -> Forall P segs ->
  Forall P (Path.normalizeFrom false st segs).
Proof.
  revert st. induction segs as [|seg segs IH]; intros st Hst Hsegs; [exact Hst|].
  inversion Hsegs as [|? ? Hseg Hrest]; subst.
  change (Path.normalizeFrom false st (seg :: segs))
    with (Path.normalizeFrom false (Path.normalizeStep false st seg) segs).
  apply IH; [|exact Hrest]. unfold Path.normalizeStep.
  destruct ((seg =? "") || (seg =? ".")); [exact Hst|].
  destruct (seg =? "..").
  - destruct st as [|top below]; [constructor|].
    destruct (top =? ".."); [exact Hst|]. now inversion Hst.
  - now constructor.
Qed.

Lemma normalizeFrom_plain_stack (segs st : list string) :
  forallb Path.plainSegment st = true ->
  forallb Path.plainSegment (Path.normalizeFrom false st segs) = true.
Proof.
  revert st. induction segs as [|seg segs IH]; intros st Hst; [exact Hst|].
  change (Path.normalizeFrom false st (seg :: segs))
    with (Path.normalizeFrom false (Path.normalizeStep false st seg) segs).
  apply IH. unfold Path.normalizeStep.
  destruct ((seg =? "") || (seg =? ".")) eqn:E1; [exact Hst|].
  destruct (seg =? "..") eqn:E2.
  - destruct st as [|top below]; [reflexivity|].
    destruct (top =? ".."); [exact Hst|].
    simpl in Hst. now apply andb_prop in Hst as [_ Hst].
  - simpl. rewrite Hst, andb_true_r. unfold Path.plainSegment.
    rewrite <- orb_assoc in *. apply orb_false_elim in E1 as [Ea Eb].
    now rewrite Ea, Eb, E2.
Qed.

(** The segments of a path resolved from an absolute directory are
    plain and hold no separator. *)
Lemma resolvedSegments_clean (cwd dir : string) (rels : list string) :
  Path.isAbsolute dir = true ->
  Forall Path.relative rels ->
  forallb Path.plainSegment (Path.resolvedSegments cwd (dir :: rels)) = true /\
  Forall (fun w => Segments.sepFree w = true)
         (Path.resolvedSegments cwd (dir :: rels)).
Proof.
  intros Habs Hrel.
  destruct (resolved_from_absolute cwd dir rels Habs Hrel) as [_ ->]. split.
  - rewrite forallb_forall. intros w Hw. apply in_rev in Hw.
    pose proof (normalizeFrom_plain_stack (flat_map (Str.split "/") rels)
                  (Path.normalizeFrom false [] (Str.split "/" dir))
                  (normalizeFrom_plain_stack (Str.split "/" dir) [] eq_refl))
      as Hall.
    rewrite forallb_forall in Hall. now apply Hall.
  - apply Forall_rev. apply normalizeFrom_keeps.
    + apply normalizeFrom_keeps; [constructor | apply split_sepFree].
    + apply Forall_flat_map. apply Forall_forall. intros r _.
      apply split_sepFree.
Qed.

(** Normalising the text of a resolved path gives its segments back. *)
Lemma normalize_rendered (segs : list string) :
  forallb Path.plainSegment segs = true ->
  Forall (fun w => Segments.sepFree w = true) segs ->
  Path.normalizeFrom false [] (Str.split "/" ("/" ++ String.concat "/" segs))
  = rev segs.
Proof.
  intros Hplain Hfree.
  change (Str.split "/" ("/" ++ String.concat "/" segs))
    with ("" :: Str.split "/" (String.concat "/" segs)).
  change (Path.normalizeFrom false [] ("" :: Str.split "/" (String.concat "/" segs)))
    with (Path.normalizeFrom false [] (Str.split "/" (String.concat "/" segs))).
  destruct segs as [|x l]; [reflexivity|].
  rewrite split_concat; [| discriminate | exact Hfree].
  rewrite normalizeFrom_plain by exact Hplain. apply app_nil_r.
Qed.

Lemma resolve_rendered (cwd dir : string) (rels : list string) :
  Path.isAbsolute dir = true ->
  Forall Path.relative rels ->
  Path.resolve cwd (dir :: rels)
  = "/" ++ String.concat "/" (Path.resolvedSegments cwd (dir :: rels)).
Proof.
  intros Habs Hrel. unfold Path.resolve.
  destruct (resolved_from_absolute cwd dir rels Habs Hrel) as [-> _].
  reflexivity.
Qed.

(** The working directory plays no part when the first argument is
    absolute. *)
Lemma resolve_ignores_cwd (cwd1 cwd2 dir : string) (rels : list string) :
  Path.isAbsolute dir = true ->
  Forall Path.relative rels ->
  Path.resolve cwd1 (dir :: rels) = Path.resolve cwd2 (dir :: rels).
Proof.
  intros Habs Hrel. unfold Path.resolve.
  destruct (resolved_from_absolute cwd1 dir rels Habs Hrel) as [-> ->].
  destruct (resolved_from_absolute cwd2 dir rels Habs Hrel) as [-> ->].
  reflexivity.
Qed.

(** Resolving from a resolved path is resolving with the arguments put
    together. *)
Lemma resolve_resolve (cwd cwd' dir : string) (rels1 rels2 : list string) :
  Path.isAbsolute dir = true ->
  Forall Path.relative rels1 ->
  Forall Path.relative rels2 ->
  Path.resolve cwd' (Path.resolve cwd (dir :: rels1) :: rels2)
  = Path.resolve cwd (dir :: rels1 ++ rels2)%list.
Proof.
  intros Habs H1 H2.
  destruct (resolvedSegments_clean cwd dir rels1 Habs H1) as [Hplain Hfree].
  pose proof (resolve_rendered cwd dir rels1 Habs H1) as Hr.
  assert (Habs' : Path.isAbsolute (Path.resolve cwd (dir :: rels1)) = true)
    by (rewrite Hr; reflexivity).
  assert (H12 : Forall Path.relative (rels1 ++ rels2)%list)
    by (apply Forall_app; now split).
  unfold Path.resolve at 1.
  destruct (resolved_from_absolute cwd' _ rels2 Habs' H2) as [-> ->].
  rewrite Hr at 1. rewrite (normalize_rendered _ Hplain Hfree).
  unfold Path.resolve.
  destruct (resolved_from_absolute cwd dir (rels1 ++ rels2)%list Habs H12)
    as [-> ->].
  destruct (resolved_from_absolute cwd dir rels1 Habs H1) as [_ ->].
  rewrite rev_involutive, flat_map_app, normalizeFrom_app. reflexivity.
Qed.

(** ** Prefixes *)

Lemma prefix_empty (s : string) : String.prefix "" s = true.
Proof. now destruct s. Qed.

Lemma prefix_cons (x y : ascii) (a b : string) :
  String.prefix (String x a) (String y b)
  = Ascii.eqb x y && String.prefix a b.
Proof.
  change (String.prefix (String x a) (String y b))
    with (match ascii_dec x y with
          | left _ => String.prefix a b
          | right _ => false
          end).
  destruct (ascii_dec x y) as [->|Hne].
  - now rewrite Ascii.eqb_refl.
  - apply Ascii.eqb_neq in Hne. now rewrite Hne.
Qed.

Lemma prefix_comparable (a b s : string) :
  String.prefix a s = true -> String.prefix b s = true ->
  String.prefix a b = true \/ String.prefix b a = true.
Proof.
  revert b s. induction a as [|x a IH]; intros b s Ha Hb;
    [left; apply prefix_empty|].
  destruct b as [|y b]; [right; reflexivity|].
  destruct s as [|z s]; [discriminate|].
  rewrite prefix_cons in Ha, Hb.
  apply andb_prop in Ha as [Exz Ha], Hb as [Eyz Hb].
  apply Ascii.eqb_eq in Exz, Eyz. subst x y.
  rewrite !prefix_cons, !Ascii.eqb_refl. exact (IH b s Ha Hb).
Qed.

Lemma prefix_before_slash (a b : string) :
  String.prefix (a ++ "/") (b ++ "/") = true ->
  a = b \/ String.prefix (a ++ "/") b = true.
Proof.
  revert b. induction a as [|x a IH]; intros [|y b]; cbn [append].
  - now left.
  - rewrite !prefix_cons. intros H. apply andb_prop in H as [E _].
    right. now rewrite E, prefix_empty.
  - rewrite prefix_cons. intros H. apply andb_prop in H as [_ H].
    destruct a; discriminate H.
  - rewrite !prefix_cons. intros H. apply andb_prop in H as [E H].
    apply Ascii.eqb_eq in E. subst y.
    destruct (IH b H) as [->|Hp]; [now left | right].
    now rewrite Ascii.eqb_refl.
Qed.

Section ViteBehaviour.

Context {PluginOption : Type}.
Variable cwd : string.
Variable __dirname : string.
Variable react : unit -> PluginOption.

Let config : Vite.UserConfig := Vite.vite_config cwd __dirname react.
Let aliases : list (string * string) := Vite.alias (Vite.resolve config).

Lemma aliases_table :
aliases
= map (fun kp => (fst kp, Path.resolve cwd [__dirname; snd kp]))
      (Vite.aliasTable Vite.vite_config_module).
Proof. reflexivity. Qed.

Lemma alias_path_relative (k p : string) :
In (k, p) (Vite.aliasTable Vite.vite_config_module) -> Path.relative p.
Proof.
intros Hin.
assert (Hall : forallb (fun kp => negb (Path.isAbsolute (snd kp)))
                       (Vite.aliasTable Vite.vite_config_module) = true)
  by (vm_compute; reflexivity).
rewrite forallb_forall in Hall. specialize (Hall _ Hin).
now apply negb_true_iff in Hall.
Qed.

(** The configuration does not depend on the directory the bundler is
  started from, [__dirname] being absolute. *)
Theorem vite_config_ignores_cwd (cwd' : string)
  (Habs : Path.isAbsolute __dirname = true) :
Vite.vite_config cwd' __dirname react = config.
Proof.
assert (H : forall p, Path.isAbsolute p = false ->
              Path.resolve cwd' [__dirname; p]
              = Path.resolve cwd [__dirname; p]).
{ intros p Hp. apply resolve_ignores_cwd; [exact Habs|].
  constructor; [exact Hp | constructor]. }
unfold config, Vite.vite_config. rewrite !H by reflexivity. reflexivity.
Qed.

(** Every alias value is an absolute, normalised path: resolving it
  again, from any working directory, returns it unchanged. *)
Theorem alias_values_are_resolved (k v : string)
  (Habs : Path.isAbsolute __dirname = true) :
In (k, v) aliases ->
Path.isAbsolute v = true /\ forall cwd', Path.resolve cwd' [v] = v.
Proof.
intros Hin. rewrite aliases_table in Hin.
apply in_map_iff in Hin as [[k' p] [[= <- <-] Hin]]. cbn [fst snd].
assert (Hrel : Forall Path.relative [p])
  by (constructor; [exact (alias_path_relative _ _ Hin) | constructor]).
split.
- rewrite (resolve_rendered cwd __dirname [p] Habs Hrel). reflexivity.
- intros cwd'.
  exact (resolve_resolve cwd cwd' __dirname [p] [] Habs Hrel (Forall_nil _)).
Qed.

(** Every alias directory is reached from the directory of [@] by the
  segments its path has after [./src]:
  [path.resolve(alias['@'], 'shared', 'UI')] is [alias['@UI']]. *)
Theorem alias_reached_from_catch_all (k v : string)
  (Habs : Path.isAbsolute __dirname = true) :
In (k, v) aliases ->
exists atSrc p sub,
  In ("@", atSrc) aliases /\
  In (k, Some p) (Vite.aliasArguments Vite.vite_config_module) /\
  Str.split "/" p = "." :: "src" :: sub /\
  forall cwd', Path.resolve cwd' (atSrc :: sub) = v.
Proof.
intros Hin. rewrite aliases_table in Hin.
apply in_map_iff in Hin as [[k' p] [[= <- <-] Hin]]. cbn [fst snd].
assert (Hall : forallb
          (fun kp => match Vite.belowSrc (snd kp) with
                     | Some _ => true
                     | None => false
                     end)
          (Vite.aliasTable Vite.vite_config_module) = true)
  by (vm_compute; reflexivity).
rewrite forallb_forall in Hall. specialize (Hall _ Hin). cbn [snd] in Hall.
destruct (Vite.belowSrc p) as [sub|] eqn:Hsub; [|discriminate].
apply belowSrc_spec in Hsub as [Hsplit Hplain].
exists (Path.resolve cwd [__dirname; "./src"]), p, sub.
split; [do 10 right; left; reflexivity|].
split; [exact (aliasTable_arguments _ _ _ Hin)|].
split; [exact Hsplit|]. intros cwd'.
assert (Hfree : Forall (fun w => Segments.sepFree w = true) sub).
{ pose proof (split_sepFree p) as Hp. rewrite Hsplit in Hp.
  inversion Hp as [|? ? _ Hp']; subst. now inversion Hp'. }
assert (Hrel : Forall Path.relative sub).
{ simpl in Hplain. rewrite forallb_forall in Hplain.
  apply Forall_forall. intros w Hw. specialize (Hplain w Hw).
  rewrite Forall_forall in Hfree. specialize (Hfree w Hw).
  unfold Path.relative. destruct w as [|a w]; [reflexivity|].
  unfold Segments.sepFree in Hfree. simpl in Hfree |- *.
  apply negb_true_iff, orb_false_elim in Hfree as [Ha _]. exact Ha. }
rewrite (resolve_resolve cwd cwd' __dirname ["./src"] sub Habs);
  [| repeat constructor | exact Hrel].
apply resolve_same_walk; [exact Habs | | |].
- constructor; [reflexivity | exact Hrel].
- constructor; [exact (alias_path_relative _ _ Hin) | constructor].
- intros st. cbn [flat_map app]. rewrite app_nil_r, Hsplit.
  rewrite (flat_map_split_sepFree sub Hfree). reflexivity.
Qed.

(** No two alias keys stand for the same directory. *)
Theorem alias_targets_distinct (k1 k2 v : string)
  (Habs : Path.isAbsolute __dirname = true) :
In (k1, v) aliases -> In (k2, v) aliases -> k1 = k2.
Proof.
intros H1 H2. rewrite aliases_table in H1, H2.
apply in_map_iff in H1 as [[k1' p1] [[= <- Hv1] H1]].
apply in_map_iff in H2 as [[k2' p2] [[= <- Hv2] H2]].
cbn [fst snd] in *.
assert (Hall : forallb
          (fun a => forallb
             (fun b => implb (Segments.sameBelowSrc (snd a) (snd b))
                             (fst a =? fst b))
             (Vite.aliasTable Vite.vite_config_module))
          (Vite.aliasTable Vite.vite_config_module) = true)
  by (vm_compute; reflexivity).
rewrite forallb_forall in Hall. specialize (Hall _ H1).
rewrite forallb_forall in Hall. specialize (Hall _ H2). cbn [fst snd] in Hall.
assert (Hsub : forallb
          (fun kp => match Vite.belowSrc (snd kp) with
                     | Some _ => true
                     | None => false
                     end)
          (Vite.aliasTable Vite.vite_config_module) = true)
  by (vm_compute; reflexivity).
rewrite forallb_forall in Hsub.
pose proof (Hsub _ H1) as Hs1. pose proof (Hsub _ H2) as Hs2.
cbn [snd] in Hs1, Hs2.
assert (Hsame : Segments.sameBelowSrc p1 p2 = true).
{ unfold Segments.sameBelowSrc.
  destruct (Vite.belowSrc p1) as [sub1|] eqn:E1; [|discriminate].
  destruct (Vite.belowSrc p2) as [sub2|] eqn:E2; [|discriminate].
  apply belowSrc_spec in E1 as [Hsp1 Hpl1], E2 as [Hsp2 Hpl2].
  simpl in Hpl1, Hpl2.
  pose proof (resolved_dot_path cwd __dirname p1 ("src" :: sub1)
                Habs Hsp1 Hpl1) as Hd1.
  pose proof (resolved_dot_path cwd __dirname p2 ("src" :: sub2)
                Habs Hsp2 Hpl2) as Hd2.
  assert (Hr1 : Forall Path.relative [p1])
    by (constructor; [exact (alias_path_relative _ _ H1) | constructor]).
  assert (Hr2 : Forall Path.relative [p2])
    by (constructor; [exact (alias_path_relative _ _ H2) | constructor]).
  assert (Hseg : Path.resolvedSegments cwd [__dirname; p1]
                 = Path.resolvedSegments cwd [__dirname; p2]).
  { destruct (resolvedSegments_clean cwd __dirname [p1] Habs Hr1) as [Hp1 Hf1].
    destruct (resolvedSegments_clean cwd __dirname [p2] Habs Hr2) as [Hp2 Hf2].
    pose proof (normalize_rendered _ Hp1 Hf1) as Hn1.
    pose proof (normalize_rendered _ Hp2 Hf2) as Hn2.
    rewrite <- (resolve_rendered cwd __dirname [p1] Habs Hr1) in Hn1.
    rewrite <- (resolve_rendered cwd __dirname [p2] Habs Hr2) in Hn2.
    rewrite Hv1, <- Hv2, Hn2 in Hn1.
    apply (f_equal (@rev string)) in Hn1. now rewrite !rev_involutive in Hn1. }
  rewrite Hd1, Hd2 in Hseg. apply app_inv_head in Hseg.
  injection Hseg as ->.
  destruct (list_eq_dec string_dec sub2 sub2); [reflexivity | congruence]. }
rewrite Hsame in Hall. now apply String.eqb_eq.
Qed.

(** An import specifier is addressed by at most one alias key, so the
  order of the entries decides nothing. *)
Theorem alias_keys_unambiguous (s k1 k2 : string) :
In k1 (map fst aliases) -> In k2 (map fst aliases) ->
Alias.addresses k1 s = true -> Alias.addresses k2 s = true ->
k1 = k2.
Proof.
intros H1 H2 A1 A2.
assert (Hall : forallb
          (fun a => forallb (fun b => negb (String.prefix (a ++ "/") b))
                            (map fst aliases))
          (map fst aliases) = true) by (vm_compute; reflexivity).
assert (Hno : forall a b, In a (map fst aliases) -> In b (map fst aliases) ->
                String.prefix (a ++ "/") b = false).
{ intros a b Ha Hb. rewrite forallb_forall in Hall. specialize (Hall a Ha).
  rewrite forallb_forall in Hall. specialize (Hall b Hb).
  now apply negb_true_iff in Hall. }
unfold Alias.addresses, Str.startsWith in A1, A2.
apply orb_prop in A1 as [E1|P1]; apply orb_prop in A2 as [E2|P2].
- apply String.eqb_eq in E1, E2. congruence.
- apply String.eqb_eq in E1. subst s. rewrite (Hno k2 k1 H2 H1) in P2.
  discriminate.
- apply String.eqb_eq in E2. subst s. rewrite (Hno k1 k2 H1 H2) in P1.
  discriminate.
- destruct (prefix_comparable _ _ _ P1 P2) as [P|P];
    apply prefix_before_slash in P as [E|P]; try congruence.
  + rewrite (Hno k1 k2 H1 H2) in P. discriminate.
  + rewrite (Hno k2 k1 H2 H1) in P. discriminate.
Qed.

End ViteBehaviour.

Lemma vite_config_ignores_cwd_witness :
  Path.isAbsolute "/home/dev/app" = true /\
  Vite.vite_config "/tmp" "/home/dev/app" (fun _ : unit => tt)
  = Vite.vite_config "/srv" "/home/dev/app" (fun _ : unit => tt).
Proof.
  split; [reflexivity|].
  exact (vite_config_ignores_cwd "/srv" "/home/dev/app" (fun _ : unit => tt)
           "/tmp" eq_refl).
Defined.

Lemma alias_values_are_resolved_witness :
  Path.isAbsolute "/home/dev/app" = true /\
  In ("@store", "/home/dev/app/src/store")
     (Vite.alias (Vite.resolve
        (Vite.vite_config "/srv" "/home/dev/app" (fun _ : unit => tt)))) /\
  Path.isAbsolute "/home/dev/app/src/store" = true /\
  forall cwd', Path.resolve cwd' ["/home/dev/app/src/store"]
               = "/home/dev/app/src/store".
Proof.
  assert (Hin : In ("@store", "/home/dev/app/src/store")
                   (Vite.alias (Vite.resolve
                      (Vite.vite_config "/srv" "/home/dev/app"
                         (fun _ : unit => tt)))))
    by (vm_compute; tauto).
  split; [reflexivity|]. split; [exact Hin|].
  exact (alias_values_are_resolved "/srv" "/home/dev/app" (fun _ : unit => tt)
           "@store" "/home/dev/app/src/store" eq_refl Hin).
Defined.

Lemma alias_reached_from_catch_all_witness :
  Path.isAbsolute "/home/dev/app" = true /\
  exists atSrc p sub,
    In ("@", atSrc)
       (Vite.alias (Vite.resolve
          (Vite.vite_config "/srv" "/home/dev/app" (fun _ : unit => tt)))) /\
    In ("@services", Some p) (Vite.aliasArguments Vite.vite_config_module) /\
    Str.split "/" p = "." :: "src" :: sub /\
    forall cwd', Path.resolve cwd' (atSrc :: sub)
                 = "/home/dev/app/src/app/api/services".
Proof.
  split; [reflexivity|].
  apply (alias_reached_from_catch_all "/srv" "/home/dev/app"
           (fun _ : unit => tt) "@services"
           "/home/dev/app/src/app/api/services" eq_refl).
  vm_compute. tauto.
Defined.

Lemma alias_targets_distinct_witness :
  Path.isAbsolute "/home/dev/app" = true /\
  In ("@app", "/home/dev/app/src/app")
     (Vite.alias (Vite.resolve
        (Vite.vite_config "/srv" "/home/dev/app" (fun _ : unit => tt)))) /\
  "@app" = "@app".
Proof.
  assert (Hin : In ("@app", "/home/dev/app/src/app")
                   (Vite.alias (Vite.resolve
                      (Vite.vite_config "/srv" "/home/dev/app"
                         (fun _ : unit => tt)))))
    by (vm_compute; tauto).
  split; [reflexivity|]. split; [exact Hin|].
  exact (alias_targets_distinct "/srv" "/home/dev/app" (fun _ : unit => tt)
           "@app" "@app" "/home/dev/app/src/app" eq_refl Hin Hin).
Defined.

Lemma alias_keys_unambiguous_witness :
  Alias.addresses "@app" "@app/api/services/user" = true /\
  Alias.addressing
    (map fst (Vite.alias (Vite.resolve
       (Vite.vite_config "/srv" "/home/dev/app" (fun _ : unit => tt)))))
    "@app/api/services/user" = ["@app"] /\
  "@app" = "@app".
Proof.
  split; [reflexivity|]. split; [reflexivity|].
  apply (alias_keys_unambiguous "/srv" "/home/dev/app" (fun _ : unit => tt)
           "@app/api/services/user" "@app" "@app");
    first [reflexivity | vm_compute; tauto].
Defined.

(** ** References inside the ESLint configuration *)

Lemma somes_map_In {A : Type} (f : A -> option string) (l : list A)
    (p : string) :
  In p (Eslint.somes (map f l)) <-> exists r, In r l /\ f r = Some p.
Proof.
  induction l as [|a l IH]; simpl.
  - split; [contradiction | intros [r [[] _]]].
  - destruct (f a) as [q|] eqn:E; simpl; rewrite IH; split.
    + intros [<-|[r [Hr Hf]]]; [exists a; split; [now left | exact E]
                                | exists r; split; [now right | exact Hf]].
    + intros [r [[<-|Hr] Hf]]; [left; congruence | right; now exists r].
    + intros [r [Hr Hf]]. exists r. split; [now right | exact Hf].
    + intros [r [[<-|Hr] Hf]]; [congruence | now exists r].
Qed.

(** The plugins that are declared are the plugins whose rules are
    configured: no plugin is declared and left without a rule. *)
Theorem declared_plugins_are_used (p : string) :
  In p Eslint.plugins <->
  exists r, In r Eslint.ruleNames /\ Eslint.rulePlugin r = Some p.
Proof.
  rewrite <- somes_map_In. split; apply inclb_incl; vm_compute; reflexivity.
Qed.

(** Everything in [.eslintrc.json] that names a plugin names a declared
    one: the six [plugin:] entries of [extends], the scope of the
    parser and the owners of the shared settings; the two other
    [extends] entries are [eslint:recommended] and [prettier]. *)
Theorem eslint_refers_to_declared_plugins :
  Forall (fun e => exists p, Eslint.extendsPlugin e = Some p /\
                             In p Eslint.plugins)
         EslintRefs.pluginConfigs /\
  length EslintRefs.pluginConfigs = 6 /\
  EslintRefs.otherConfigs = ["eslint:recommended"; "prettier"] /\
  (exists scope, Str.beforeFirst "/" EslintRefs.parser = Some scope /\
                 In scope Eslint.plugins) /\
  Forall (fun k => In (EslintRefs.settingOwner k) Eslint.plugins)
         EslintRefs.settingsKeys.
Proof.
  split.
  - apply Forall_forall. intros e He.
    assert (Hall : forallb
              (fun e => match Eslint.extendsPlugin e with
                        | Some p => Str.mem p Eslint.plugins
                        | None => false
                        end) EslintRefs.pluginConfigs = true)
      by (vm_compute; reflexivity).
    rewrite forallb_forall in Hall. specialize (Hall e He).
    destruct (Eslint.extendsPlugin e) as [p|]; [|discriminate].
    exists p. split; [reflexivity | now apply mem_In].
  - split; [reflexivity|]. split; [reflexivity|]. split.
    + exists "@typescript-eslint". split; [reflexivity|].
      apply mem_In. reflexivity.
    + apply Forall_forall. intros k Hk. apply mem_In.
      assert (Hall : forallb
                (fun k => Str.mem (EslintRefs.settingOwner k) Eslint.plugins)
                EslintRefs.settingsKeys = true) by (vm_compute; reflexivity).
      rewrite forallb_forall in Hall. now apply Hall.
Qed.

(** ** Agreement between the tools *)

(** The lint script, the import resolver and the format script name the
    same four extensions; the lint script names [.js] twice. *)
Theorem tool_extensions_agree :
  Extensions.resolverExtensions = [".js"; ".jsx"; ".ts"; ".tsx"] /\
  Extensions.formatExtensions = Extensions.resolverExtensions /\
  Extensions.dedup Extensions.lintExtensions = Extensions.resolverExtensions /\
  (forall e, In e Extensions.lintExtensions <->
             In e Extensions.resolverExtensions) /\
  count_occ string_dec Extensions.lintExtensions ".js" = 2.
Proof.
  repeat (split; [vm_compute; reflexivity|]). split.
  - intros e. split; apply inclb_incl; vm_compute; reflexivity.
  - vm_compute. reflexivity.
Qed.

(** What the project files point at exists: the project [tsconfig.json]
    refers to is documented, the file [tsconfig.node.json] includes is
    in the repository, and every directory an alias stands for, in
    [paths] and in [resolve.alias] alike, lies in the [src] directory
    that [tsconfig.json] and [tsconfig.app.json] include. *)
Theorem project_references_resolve :
  Forall (fun p => In (Project.plain p) (map fst Tsconfig.documented))
         (Project.referencePaths Tsconfig.tsconfig_json) /\
  Project.referencePaths Tsconfig.tsconfig_json = ["./tsconfig.node.json"] /\
  Forall (fun f => In f (map fst Repository.files))
         (Project.includes Tsconfig.tsconfig_node_json) /\
  Project.includes Tsconfig.tsconfig_json = ["src"] /\
  Project.includes Tsconfig.tsconfig_app_json = ["src"] /\
  Forall (fun t => In (Project.topDirectory t)
                      (Project.includes Tsconfig.tsconfig_json))
         Project.pathTargets /\
  Forall (fun kp => In (Project.topDirectory (snd kp))
                       (Project.includes Tsconfig.tsconfig_app_json))
         (Vite.aliasTable Vite.vite_config_module).
Proof.
  split; [constructor; [right; left; reflexivity | constructor]|].
  split; [reflexivity|].
  split; [constructor; [right; left; reflexivity | constructor]|].
  split; [reflexivity|]. split; [reflexivity|]. split.
  - apply Forall_forall. intros t Ht. apply mem_In.
    assert (Hall : forallb
              (fun t => Str.mem (Project.topDirectory t)
                                (Project.includes Tsconfig.tsconfig_json))
              Project.pathTargets = true) by (vm_compute; reflexivity).
    rewrite forallb_forall in Hall. now apply Hall.
  - apply Forall_forall. intros kp Hkp. apply mem_In.
    assert (Hall : forallb
              (fun kp => Str.mem (Project.topDirectory (snd kp))
                                 (Project.includes Tsconfig.tsconfig_app_json))
              (Vite.aliasTable Vite.vite_config_module) = true)
      by (vm_compute; reflexivity).
    rewrite forallb_forall in Hall. now apply Hall.
Qed.

(** The guide prints the ESLint configuration twice; both printings are
    the configuration of [.eslintrc.json], member for member and in the
    same order. *)
Theorem readme_eslint_blocks_agree :
  Readme.eslint_block_first = Eslint.eslintrc /\
  Readme.eslint_block_second = Eslint.eslintrc.
Proof. split; reflexivity. Qed.
